(** * Quotesn service worker (sw.js): cache-strategy engine

    A shallow embedding of the service worker's request router, its four
    caching strategies, the entry trimmer and the activation sweep, with
    the properties of its design document stated and proved (or refuted)
    against the embedding.

    Modelling conventions
    - Strings are [String.string]; a URL is the record the platform's
      [new URL(...)] produces (origin, pathname, search).
    - A cache is an association list in insertion order, keyed by the
      request's URL; cache storage is an association list of named caches
      in creation order.
    - Asynchronous code is run to quiescence, one task at a time: a
      call that the source does not await ([cache.put], [trimCache]) is
      executed where it is issued.  The state that is threaded through is
      [World]: the cache storage, the log of [fetch] calls, and whether
      the worker has claimed its clients.
    - [cache.put] and [cache.addAll] refuse what the platform refuses:
      a partial response (status 206) and a response with [Vary: *];
      the promise then rejects and the store is left as it was.
    - A JavaScript value that matters for control flow is a [jsval]; a
      promise is a value that carries its settlement, so that the
      truthiness of a promise object and promise adoption on [return]
      are both visible. *)

From Stdlib Require Import String Ascii List Bool Arith Lia.
Import ListNotations.
Open Scope string_scope.

(* ================================================================== *)
(** ** Strings: the JavaScript string methods the worker uses *)

(** [s.startsWith(p)] *)
Definition startsWith (s p : string) : bool := String.prefix p s.

(** [s.includes(sub)]: some tail of [s] starts with [sub]. *)
Fixpoint includes (s sub : string) : bool :=
  String.prefix sub s ||
  match s with
  | EmptyString => false
  | String _ r => includes r sub
  end.

(** [s.endsWith(x)]: some tail of [s] is [x]. *)
Fixpoint endsWith (s x : string) : bool :=
  (s =? x) ||
  match s with
  | EmptyString => false
  | String _ r => endsWith r x
  end.

(** ASCII lower-casing ([A]..[Z] to [a]..[z]). *)
Definition toLowerAscii (c : ascii) : ascii :=
  let n := nat_of_ascii c in
  if (65 <=? n)%nat && (n <=? 90)%nat then ascii_of_nat (n + 32) else c.

Fixpoint toLowerCase (s : string) : string :=
  match s with
  | EmptyString => EmptyString
  | String c r => String (toLowerAscii c) (toLowerCase r)
  end.

(** Does character [c] occur in [s]? *)
Fixpoint occurs (c : ascii) (s : string) : bool :=
  match s with
  | EmptyString => false
  | String d r => Ascii.eqb c d || occurs c r
  end.

(* ================================================================== *)
(** ** The image pattern of the fetch listener

    The listener tests the URL's pathname against a regular expression
    with the [i] flag: an escaped dot, the group
    [(png|jpg|jpeg|webp|avif|gif)], an optional group made of an escaped
    question mark followed by dot-star, and the end anchor [$].  The
    matcher below follows the pattern piece by piece. *)

Module ImagePattern.

(** Two characters match under the [i] flag (no [u] flag: a non-ASCII
    character never folds onto an ASCII one). *)
Definition char_ci (a b : ascii) : bool :=
  Ascii.eqb (toLowerAscii a) (toLowerAscii b).

(** Consume the literal [lit], case-insensitively, from the front of
    [s]; the rest of [s] on success. *)
Fixpoint literal_ci (lit s : string) : option string :=
  match lit with
  | EmptyString => Some s
  | String a lit' =>
      match s with
      | EmptyString => None
      | String b s' => if char_ci a b then literal_ci lit' s' else None
      end
  end.

(** The alternatives of the group [(png|jpg|jpeg|webp|avif|gif)]. *)
Definition alternatives : list string :=
  ["png"; "jpg"; "jpeg"; "webp"; "avif"; "gif"].

(** A line terminator, which [.] does not match. *)
Definition line_terminator (c : ascii) : bool :=
  Ascii.eqb c "010" || Ascii.eqb c "013".

(** Dot-star up to the anchor: every remaining character is matched
    by the dot. *)
Fixpoint dot_star_end (s : string) : bool :=
  match s with
  | EmptyString => true
  | String c r => negb (line_terminator c) && dot_star_end r
  end.

(** The optional group and the anchor: the end of the input, or a
    question mark and then dot-star up to the end of the input. *)
Definition optional_query_end (s : string) : bool :=
  match s with
  | EmptyString => true
  | String c r => Ascii.eqb c "?" && dot_star_end r
  end.

(** The whole pattern, attempted at the front of [s]. *)
Definition match_here (s : string) : bool :=
  match s with
  | EmptyString => false
  | String c r =>
      Ascii.eqb c "." &&
      existsb (fun alt =>
                 match literal_ci alt r with
                 | Some rest => optional_query_end rest
                 | None => false
                 end) alternatives
  end.

(** [pattern.test(s)]: the pattern is attempted at every position. *)
Fixpoint test (s : string) : bool :=
  match_here s ||
  match s with
  | EmptyString => false
  | String _ r => test r
  end.

End ImagePattern.

(* ================================================================== *)
(** ** Requests and responses *)

(** The fields of [new URL(req.url)] that the worker reads, and the
    query string, which it does not. *)
Record URL := mkURL {
  origin : string;
  pathname : string;
  search : string
}.

(** The serialised URL; it is the key of a cached entry. *)
Definition href (u : URL) : string := origin u ++ pathname u ++ search u.

Record Request := mkRequest {
  method : string;
  url : URL;
  mode : string;
  destination : string;
  accept : option string       (* [req.headers.get('accept')], null when absent *)
}.

(** A body is text, or bytes given by their base64 encoding. *)
Inductive Body :=
| BodyText (s : string)
| BodyBase64 (payload : string).

Record Response := mkResponse {
  status : nat;
  type : string;               (* "basic", "cors", "default", "opaque", ... *)
  headers : list (string * string);
  body : Body
}.

(** [response.ok] *)
Definition ok (r : Response) : bool :=
  (200 <=? status r)%nat && (status r <=? 299)%nat.

(** [response.headers.get(name)]: header names compare case-insensitively. *)
Fixpoint headers_get (hs : list (string * string)) (name : string) : option string :=
  match hs with
  | [] => None
  | (n, v) :: hs' =>
      if toLowerCase n =? toLowerCase name then Some v else headers_get hs' name
  end.

(** [new Response(text, { headers, status })]: a text body gets the
    default content type unless the caller supplied one. *)
Definition new_Response (text : string) (hs : list (string * string)) (st : nat) : Response :=
  {| status := st;
     type := "default";
     headers := match headers_get hs "content-type" with
                | Some _ => hs
                | None => hs ++ [("content-type", "text/plain;charset=UTF-8")]
                end;
     body := BodyText text |}.

(** The test the three guarded strategies share:
    [response.ok || response.type === 'opaque']. *)
Definition usable (r : Response) : bool := ok r || (type r =? "opaque").

(* ================================================================== *)
(** ** JavaScript values and promises *)

Inductive jsval :=
| JUndefined
| JNull
| JResponse (r : Response)
| JPromise (p : settled)
with settled :=
| Fulfills (v : jsval)
| Rejects.

(** Truthiness: every object, a promise included, is truthy. *)
Definition truthy (v : jsval) : bool :=
  match v with
  | JUndefined | JNull => false
  | JResponse _ | JPromise _ => true
  end.

(** [a || b] *)
Definition js_or (a b : jsval) : jsval := if truthy a then a else b.

(** [return v] in an [async] function: a returned promise is adopted. *)
Definition async_return (v : jsval) : settled :=
  match v with
  | JPromise p => p
  | _ => Fulfills v
  end.

(** Does the settlement hand a Response to the caller? *)
Definition resolves_to_Response (p : settled) : bool :=
  match p with
  | Fulfills (JResponse _) => true
  | _ => false
  end.

(* ================================================================== *)
(** ** Cache storage *)

(** A cache: (URL, response) pairs, oldest first. *)
Definition Cache := list (string * Response).

(** Cache storage: (name, cache) pairs, in creation order. *)
Definition CacheStorage := list (string * Cache).

Fixpoint lookup {V : Type} (k : string) (l : list (string * V)) : option V :=
  match l with
  | [] => None
  | (k', v) :: l' => if k' =? k then Some v else lookup k l'
  end.

(** Every pair under key [k] is dropped; the others keep their order. *)
Definition remove {V : Type} (k : string) (l : list (string * V)) : list (string * V) :=
  filter (fun e => negb (fst e =? k)) l.

Definition has_cache (name : string) (cs : CacheStorage) : bool :=
  match lookup name cs with Some _ => true | None => false end.

(** The entries of the store called [name]; none when there is no such store. *)
Definition entries (name : string) (cs : CacheStorage) : Cache :=
  match lookup name cs with Some c => c | None => [] end.

Definition store_names (cs : CacheStorage) : list string := map fst cs.

Definition update_cache (name : string) (f : Cache -> Cache) (cs : CacheStorage) : CacheStorage :=
  map (fun e => if fst e =? name then (fst e, f (snd e)) else e) cs.

(** The first response stored under [key] in any cache, in creation order. *)
Fixpoint match_all (key : string) (cs : CacheStorage) : option Response :=
  match cs with
  | [] => None
  | (_, c) :: cs' =>
      match lookup key c with
      | Some r => Some r
      | None => match_all key cs'
      end
  end.

(* ================================================================== *)
(** ** The world and the task monad *)

Record World := mkWorld {
  caches : CacheStorage;
  fetch_log : list string;     (* URL of every [fetch] call, oldest first *)
  clients_claimed : bool
}.

Definition with_caches (f : CacheStorage -> CacheStorage) (w : World) : World :=
  {| caches := f (caches w);
     fetch_log := fetch_log w;
     clients_claimed := clients_claimed w |}.

Definition Task (A : Type) : Type := World -> A * World.

Definition ret {A : Type} (a : A) : Task A := fun w => (a, w).

Definition bind {A B : Type} (m : Task A) (k : A -> Task B) : Task B :=
  fun w => let (a, w') := m w in k a w'.

Notation "x <- m ;; k" := (bind m (fun x => k))
  (at level 61, m at next level, right associativity).
Notation "m ;; k" := (bind m (fun _ => k))
  (at level 61, right associativity).

Definition result {A : Type} (t : Task A) (w : World) : A := fst (t w).
Definition exec {A : Type} (t : Task A) (w : World) : World := snd (t w).

(** [for (let i = from; i < from + n; i++) await body(i)] *)
Fixpoint for_loop (n from : nat) (body : nat -> Task unit) : Task unit :=
  match n with
  | O => ret tt
  | S n' => body from ;; for_loop n' (S from) body
  end.

(** [Promise.all(l.map(f))], each call run where it is issued. *)
Fixpoint for_each {A : Type} (l : list A) (f : A -> Task unit) : Task unit :=
  match l with
  | [] => ret tt
  | a :: l' => f a ;; for_each l' f
  end.

(** *** Cache storage primitives *)

(** [caches.open(name)]: the store is created, empty, when absent. *)
Definition caches_open (name : string) : Task unit :=
  fun w => (tt, if has_cache name (caches w) then w
                else with_caches (fun cs => (cs ++ [(name, [])])%list) w).

(** [caches.keys()] *)
Definition caches_keys : Task (list string) :=
  fun w => (store_names (caches w), w).

(** [caches.delete(name)] *)
Definition caches_delete (name : string) : Task unit :=
  fun w => (tt, with_caches (remove name) w).

(** [caches.match(request)]: every store is searched. *)
Definition caches_match (request : Request) : Task jsval :=
  fun w => (match match_all (href (url request)) (caches w) with
            | Some r => JResponse r
            | None => JUndefined
            end, w).

(** [cache.match(request)] on the store opened as [name]. *)
Definition cache_match (name : string) (request : Request) : Task jsval :=
  fun w => (match lookup (href (url request)) (entries name (caches w)) with
            | Some r => JResponse r
            | None => JUndefined
            end, w).

(** The field values of the response's [Vary] headers: the values of
    every header of that name, split at commas. *)
Fixpoint split_commas (s : string) : list string :=
  match s with
  | EmptyString => [EmptyString]
  | String c r =>
      if Ascii.eqb c ","
      then EmptyString :: split_commas r
      else match split_commas r with
           | [] => [String c EmptyString]
           | v :: vs => String c v :: vs
           end
  end.

(** A field value without its spaces and tabs; it is a lone asterisk
    exactly when the trimmed field value is. *)
Fixpoint without_spaces (s : string) : string :=
  match s with
  | EmptyString => EmptyString
  | String c r =>
      if Ascii.eqb c " " || Ascii.eqb c "009"
      then without_spaces r
      else String c (without_spaces r)
  end.

Fixpoint vary_values (hs : list (string * string)) : list string :=
  match hs with
  | [] => []
  | (n, v) :: hs' =>
      if toLowerCase n =? "vary"
      then (map without_spaces (split_commas v) ++ vary_values hs')%list
      else vary_values hs'
  end.

(** Some [Vary] field value is an asterisk. *)
Definition varies_on_anything (r : Response) : bool :=
  existsb (String.eqb "*") (vary_values (headers r)).

(** The responses the platform's [cache.put] takes: not a partial
    response (status 206), and no [Vary: *]. *)
Definition put_accepts (r : Response) : bool :=
  negb (status r =? 206)%nat && negb (varies_on_anything r).

(** [cache.put(request, response.clone())], as the promise it returns.
    A response the platform does not take rejects the promise and
    leaves the store as it was; otherwise an entry under the same key
    is replaced, and the new entry is the youngest.  (The requests of
    the handlers are GET requests over http, which is all the platform
    asks of the request.) *)
Definition cache_put (name : string) (request : Request) (response : Response)
  : Task settled :=
  fun w => if put_accepts response
           then (Fulfills JUndefined,
                 with_caches
                   (update_cache name
                      (fun c => (remove (href (url request)) c
                                 ++ [(href (url request), response)])%list)) w)
           else (Rejects, w).

(** [cache.keys()] *)
Definition cache_keys (name : string) : Task (list string) :=
  fun w => (map fst (entries name (caches w)), w).

(** [cache.delete(key)]; [key] is [keys[i]], which is [undefined] past
    the end of the array, and then nothing is deleted. *)
Definition cache_delete (name : string) (key : option string) : Task unit :=
  fun w => (tt, match key with
                | Some k => with_caches (update_cache name (remove k)) w
                | None => w
                end).

(** [self.clients.claim()] *)
Definition clients_claim : Task unit :=
  fun w => (tt, {| caches := caches w;
                   fetch_log := fetch_log w;
                   clients_claimed := true |}).

(** *** [fetch] *)

Inductive FetchMode := AsRequested | NoCors.

Fixpoint split_comma (s : string) : option (string * string) :=
  match s with
  | EmptyString => None
  | String c r =>
      if Ascii.eqb c "," then Some (EmptyString, r)
      else match split_comma r with
           | Some (a, b) => Some (String c a, b)
           | None => None
           end
  end.

(** A [data:] URL is answered by the platform without the network:
    status 200, the media type as content type, the payload as body. *)
Definition data_url_response (u : string) : option Response :=
  match split_comma (substring 5 (String.length u - 5) u) with
  | None => None
  | Some (media, payload) =>
      let base64 := endsWith media ";base64" in
      let mime := if base64
                  then substring 0 (String.length media - 7) media
                  else media in
      Some {| status := 200;
              type := "basic";
              headers := [("content-type",
                           if mime =? "" then "text/plain;charset=US-ASCII" else mime)];
              body := if base64 then BodyBase64 payload else BodyText payload |}
  end.

(** The promise [fetch(...)] returns, as a settlement. *)
Definition settle (r : option Response) : settled :=
  match r with
  | Some response => Fulfills (JResponse response)
  | None => Rejects
  end.

(* ================================================================== *)
(** ** The worker *)

(** [IMAGE_CACHE_MAX_ITEMS] *)
Definition IMAGE_CACHE_MAX_ITEMS : nat := 60.

(** The embedded 1x1 transparent PNG of [cacheFirstWithLimit]. *)
Definition fallbackImg : string :=
  "data:image/png;base64,iVBORw0KGgoAAAANSUhEUgAAAAEAAAABCAQAAAC1HAwCAAAAC0lEQVR42mP8/xcAAt8B3y8y0dQAAAAASUVORK5CYII=".

(** What the fetch listener hands to [event.respondWith]. *)
Inductive Handler :=
| HandleHTMLNavigation
| StaleWhileRevalidate (cacheName : string)
| CacheFirstWithLimit (cacheName : string) (maxItems : nat)
| NetworkFallingBackToCache (cacheName : string).

Section Worker.

(** [VERSION]: the deployed generation tag. *)
Variable VERSION : string.

(** [OFFLINE_HTML]: the inline offline document, owned by the page layer. *)
Variable OFFLINE_HTML : string.

(** [self.location.origin] *)
Variable location_origin : string.

(** The network: what a request for a URL yields, [None] when the
    fetch rejects (offline, DNS, ...). *)
Variable network : string -> FetchMode -> option Response.

Definition RUNTIME_CACHE : string := "quotesn-runtime-" ++ VERSION.
Definition PRECACHE : string := "quotesn-precache-" ++ VERSION.

(** What fetching [u] yields: a [data:] URL never reaches the network. *)
Definition fetch_outcome (u : string) (m : FetchMode) : option Response :=
  if startsWith u "data:" then data_url_response u else network u m.

(** [fetch(input, init)] *)
Definition fetch (u : string) (m : FetchMode) : Task (option Response) :=
  fun w => (fetch_outcome u m,
            {| caches := caches w;
               fetch_log := (fetch_log w ++ [u])%list;
               clients_claimed := clients_claimed w |}).

(** *** [trimCache]; [maxItems] is a number of entries. *)
Definition trimCache (cacheName : string) (maxItems : nat) : Task unit :=
  caches_open cacheName ;;
  keys <- cache_keys cacheName ;;
  if (List.length keys <=? maxItems)%nat then ret tt
  else
    let deletions := List.length keys - maxItems in
    for_loop deletions 0 (fun i => cache_delete cacheName (nth_error keys i)).

(** *** The activate listener *)
Definition on_activate : Task unit :=
  names <- caches_keys ;;
  for_each
    (filter (fun name => startsWith name "quotesn-"
                         && negb (name =? PRECACHE)
                         && negb (name =? RUNTIME_CACHE)) names)
    caches_delete ;;
  clients_claim.

(** *** The fetch listener *)
Definition fetch_listener (req : Request) : option Handler :=
  if negb (method req =? "GET") then None
  else if (mode req =? "navigate")
          || includes (match accept req with Some a => a | None => "" end) "text/html"
  then Some HandleHTMLNavigation
  else if origin (url req) =? location_origin
  then Some (StaleWhileRevalidate RUNTIME_CACHE)
  else if (destination req =? "image") || ImagePattern.test (pathname (url req))
  then Some (CacheFirstWithLimit (RUNTIME_CACHE ++ "-img") IMAGE_CACHE_MAX_ITEMS)
  else Some (NetworkFallingBackToCache RUNTIME_CACHE).

(** *** Strategies *)

Definition handleHTMLNavigation (request : Request) : Task settled :=
  r <- fetch (href (url request)) AsRequested ;;
  match r with
  | Some network_response =>
      caches_open RUNTIME_CACHE ;;
      cache_put RUNTIME_CACHE request network_response ;;
      ret (async_return (JResponse network_response))
  | None =>
      cached <- caches_match request ;;
      if truthy cached then ret (async_return cached)
      else ret (async_return
                  (JResponse
                     (new_Response OFFLINE_HTML
                        [("Content-Type", "text/html; charset=utf-8")] 200)))
  end.

Definition staleWhileRevalidate (request : Request) (cacheName : string) : Task settled :=
  caches_open cacheName ;;
  cached <- cache_match cacheName request ;;
  r <- fetch (href (url request)) AsRequested ;;
  fetchPromise <-
    match r with
    | Some response =>
        (if truthy (JResponse response) && usable response
         then cache_put cacheName request response ;; ret tt
         else ret tt) ;;
        ret (JPromise (Fulfills (JResponse response)))
    | None => ret (JPromise (Fulfills JNull))
    end ;;
  ret (async_return
         (js_or (js_or cached fetchPromise)
                (JResponse (new_Response "" [] 504)))).

Definition cacheFirstWithLimit (request : Request) (cacheName : string)
           (maxItems : nat) : Task settled :=
  caches_open cacheName ;;
  cached <- cache_match cacheName request ;;
  if truthy cached then ret (async_return cached)
  else
    r <- fetch (href (url request)) NoCors ;;
    match r with
    | Some response =>
        if truthy (JResponse response) && usable response
        then
          stored <- cache_put cacheName request response ;;
          match stored with
          | Fulfills _ =>
              trimCache cacheName maxItems ;;
              ret (async_return (JResponse response))
          | Rejects =>
              (* the awaited put threw inside [try]: the [catch] runs *)
              p <- fetch fallbackImg AsRequested ;;
              ret (async_return (JPromise (settle p)))
          end
        else ret (async_return (JResponse response))
    | None =>
        p <- fetch fallbackImg AsRequested ;;
        ret (async_return (JPromise (settle p)))
    end.

Definition networkFallingBackToCache (request : Request) (cacheName : string)
  : Task settled :=
  r <- fetch (href (url request)) AsRequested ;;
  match r with
  | Some response =>
      (if truthy (JResponse response) && usable response
       then caches_open cacheName ;;
            cache_put cacheName request response ;;
            ret tt
       else ret tt) ;;
      ret (async_return (JResponse response))
  | None =>
      cached <- caches_match request ;;
      ret (async_return (js_or cached (JResponse (new_Response "" [] 504))))
  end.

(** [event.respondWith(handler(req, ...))] *)
Definition respondWith (h : Handler) (req : Request) : Task settled :=
  match h with
  | HandleHTMLNavigation => handleHTMLNavigation req
  | StaleWhileRevalidate cacheName => staleWhileRevalidate req cacheName
  | CacheFirstWithLimit cacheName maxItems => cacheFirstWithLimit req cacheName maxItems
  | NetworkFallingBackToCache cacheName => networkFallingBackToCache req cacheName
  end.

(** The fetch event: [None] when the listener returns without
    responding, and the request is left to the browser. *)
Definition on_fetch (req : Request) : Task (option settled) :=
  match fetch_listener req with
  | None => ret None
  | Some h => p <- respondWith h req ;; ret (Some p)
  end.

End Worker.

(* ================================================================== *)
(** ** The router as the design document words it *)

Section RouterSpec.

Variable VERSION : string.
Variable location_origin : string.

(** The recognised raster-image extensions. *)
Definition raster_extensions : list string :=
  ["png"; "jpg"; "jpeg"; "webp"; "avif"; "gif"].

(** The path ends in a dot and one of the extensions, in any case. *)
Definition has_raster_extension (path : string) : bool :=
  existsb (fun ext => endsWith (toLowerCase path) ("." ++ ext)) raster_extensions.

(** First match wins; [otherwise] when no rule matches. *)
Fixpoint first_match {A B : Type} (rules : list ((A -> bool) * B)) (otherwise : B)
         (a : A) : B :=
  match rules with
  | [] => otherwise
  | (applies, b) :: rules' => if applies a then b else first_match rules' otherwise a
  end.

(** Rules (1) to (4) of the classification order. *)
Definition router_rules : list ((Request -> bool) * option Handler) :=
  [ (fun req => negb (method req =? "GET"),
     None);
    (fun req => (mode req =? "navigate")
                || match accept req with
                   | Some a => includes a "text/html"
                   | None => false
                   end,
     Some HandleHTMLNavigation);
    (fun req => origin (url req) =? location_origin,
     Some (StaleWhileRevalidate (RUNTIME_CACHE VERSION)));
    (fun req => (destination req =? "image")
                || has_raster_extension (pathname (url req)),
     Some (CacheFirstWithLimit (RUNTIME_CACHE VERSION ++ "-img")
                                IMAGE_CACHE_MAX_ITEMS)) ].

(** Rule (5): anything else. *)
Definition router_otherwise : option Handler :=
  Some (NetworkFallingBackToCache (RUNTIME_CACHE VERSION)).

End RouterSpec.

(** The same request with another query string. *)
Definition with_search (q : string) (req : Request) : Request :=
  {| method := method req;
     url := {| origin := origin (url req);
               pathname := pathname (url req);
               search := q |};
     mode := mode req;
     destination := destination req;
     accept := accept req |}.

(* ================================================================== *)
(** ** Auxiliary definitions for the proofs *)

(** The response the platform gives for [fallbackImg]. *)
Definition placeholder_png : Response :=
  {| status := 200;
     type := "basic";
     headers := [("content-type", "image/png")];
     body := BodyBase64
               "iVBORw0KGgoAAAANSUhEUgAAAAEAAAABCAQAAAC1HAwCAAAAC0lEQVR42mP8/xcAAt8B3y8y0dQAAAAASUVORK5CYII=" |}.

(** The filter of the activate listener. *)
Definition swept (VERSION name : string) : bool :=
  startsWith name "quotesn-"
  && negb (name =? PRECACHE VERSION)
  && negb (name =? RUNTIME_CACHE VERSION).

(** The loop of [trimCache] on the entries of its store. *)
Fixpoint delete_from (keys : list string) (n from : nat) (c : Cache) : Cache :=
  match n with
  | O => c
  | S n' =>
      delete_from keys n' (S from)
        (match nth_error keys from with
         | Some k => remove k c
         | None => c
         end)
  end.

(** The last [n] entries of a cache: the [n] most recently inserted. *)
Definition most_recent (n : nat) (c : Cache) : Cache :=
  rev (firstn n (rev c)).

(** The constants of the deployed worker. *)
Module Deployed.

Definition VERSION : string := "v1.0.0-2025-09-10".

Definition RUNTIME_CACHE : string := Eval cbv in RUNTIME_CACHE VERSION.

End Deployed.

(** Concrete requests, responses and worlds. *)
Module Sample.

Definition site : string := "https://quotesn.com".

Definition offline_page : string := "<!doctype html><title>Offline | Quotesn</title>".

Definition offline : string -> FetchMode -> option Response := fun _ _ => None.

Definition not_found : Response :=
  {| status := 404; type := "basic";
     headers := [("content-type", "text/html")]; body := BodyText "Not Found" |}.

Definition photo : Response :=
  {| status := 200; type := "basic";
     headers := [("content-type", "image/jpeg")]; body := BodyBase64 "/9j/4AAQ" |}.

Definition always (r : Response) : string -> FetchMode -> option Response :=
  fun _ _ => Some r.

Definition about_page : Request :=
  {| method := "GET";
     url := {| origin := site; pathname := "/about/"; search := "" |};
     mode := "navigate"; destination := "document";
     accept := Some "text/html,application/xhtml+xml" |}.

Definition quotes_json : Request :=
  {| method := "GET";
     url := {| origin := site; pathname := "/data/quotes.json"; search := "" |};
     mode := "cors"; destination := ""; accept := Some "*/*" |}.

Definition cdn_photo : Request :=
  {| method := "GET";
     url := {| origin := "https://cdn.example"; pathname := "/photo.JPG";
               search := "?w=640" |};
     mode := "no-cors"; destination := ""; accept := None |}.

Definition fresh : World :=
  {| caches := []; fetch_log := []; clients_claimed := false |}.

(** An image store of four entries. *)
Definition image_store : Cache :=
  [("https://cdn.example/a.png", photo);
   ("https://cdn.example/b.png", photo);
   ("https://cdn.example/photo.JPG?w=640", photo);
   ("https://cdn.example/d.png", not_found)].

(** Stores of two generations, [v1] and [v2], and a foreign store. *)
Definition two_generations : World :=
  {| caches := [("quotesn-precache-v1", []);
                ("quotesn-runtime-v1", [("https://quotesn.com/", not_found)]);
                ("quotesn-runtime-v1-img", image_store);
                ("quotesn-precache-v2", []);
                ("quotesn-runtime-v2", []);
                ("quotesn-runtime-v2-img", image_store);
                ("analytics", [])];
     fetch_log := []; clients_claimed := false |}.

End Sample.

(* ================================================================== *)
(** ** The install listener *)

(** [CORE_ROUTES] *)
Definition CORE_ROUTES : list string :=
  [ "/"; "/index.html"; "/about/"; "/blog/"; "/quizzes/"; "/contact/";
    "/contact-success.html"; "/privacy/"; "/terms/"; "/manifest.webmanifest";
    "/images/favicon.ico"; "/images/app-icon-192.png"; "/images/app-icon-512.png";
    "/images/android-chrome-144x144.png"; "/images/android-chrome-384x384.png" ].

(** Are the strings of [l] pairwise different? *)
Fixpoint distinct (l : list string) : bool :=
  match l with
  | [] => true
  | a :: l' => negb (existsb (String.eqb a) l') && distinct l'
  end.

(** The request the platform makes from a site-relative path given as
    a string, resolved against the worker's origin. *)
Definition request_of_path (location_origin path : string) : Request :=
  {| method := "GET";
     url := {| origin := location_origin; pathname := path; search := "" |};
     mode := "cors";
     destination := "";
     accept := None |}.

(** A response [cache.addAll] accepts: an ok status other than 206,
    and no [Vary: *]. *)
Definition addable (r : option Response) : bool :=
  match r with
  | Some response =>
      ok response && negb (status response =? 206)%nat
      && negb (varies_on_anything response)
  | None => false
  end.

(** What a lifecycle listener does with its event: the promise it gives
    to [event.waitUntil], and whether it called [self.skipWaiting()]. *)
Record Lifecycle := mkLifecycle {
  waitUntil : settled;
  skipWaiting : bool
}.

Section Precaching.

Variable location_origin : string.
Variable network : string -> FetchMode -> option Response.

(** The fetches of [cache.addAll]: one per path, all of them issued. *)
Fixpoint fetch_all (paths : list string) : Task (list (option Response)) :=
  match paths with
  | [] => ret []
  | path :: paths' =>
      r <- fetch network (href (url (request_of_path location_origin path))) AsRequested ;;
      rs <- fetch_all paths' ;;
      ret (r :: rs)
  end.

(** The puts of [cache.addAll], in the order of the paths. *)
Fixpoint put_all (name : string) (fetched : list (string * option Response)) : Task unit :=
  match fetched with
  | [] => ret tt
  | (path, Some response) :: fetched' =>
      cache_put name (request_of_path location_origin path) response ;;
      put_all name fetched'
  | (_, None) :: fetched' => put_all name fetched'
  end.

(** [cache.addAll(paths)] on the store opened as [name]: all or nothing.
    The responses are stored only when every fetch gave a response the
    cache accepts and no two requests coincide; otherwise the promise
    rejects and the store is as it was. *)
Definition cache_addAll (name : string) (paths : list string) : Task settled :=
  responses <- fetch_all paths ;;
  if distinct paths && forallb addable responses
  then put_all name (combine paths responses) ;; ret (Fulfills JUndefined)
  else ret Rejects.

(** The install listener:
    [caches.open(PRECACHE).then(cache => cache.addAll(CORE_ROUTES)).catch(() => {})]
    goes to [event.waitUntil], and then [self.skipWaiting()] is called. *)
Definition on_install (VERSION : string) : Task Lifecycle :=
  caches_open (PRECACHE VERSION) ;;
  added <- cache_addAll (PRECACHE VERSION) CORE_ROUTES ;;
  ret {| waitUntil := match added with
                      | Fulfills v => Fulfills v
                      | Rejects => Fulfills JUndefined
                      end;
         skipWaiting := true |}.

End Precaching.

(** A run of cache-first with a cap over a list of requests, one after
    the other. *)
Fixpoint cacheFirstWithLimit_each
         (network : string -> FetchMode -> option Response)
         (requests : list Request) (cacheName : string) (maxItems : nat)
  : Task unit :=
  match requests with
  | [] => ret tt
  | request :: requests' =>
      cacheFirstWithLimit network request cacheName maxItems ;;
      cacheFirstWithLimit_each network requests' cacheName maxItems
  end.

(** Every store has pairwise different keys. *)
Definition keys_distinct (w : World) : Prop :=
  forall name, NoDup (map fst (entries name (caches w))).

(* ================================================================== *)
(** ** The shell worker

    The second worker of the repository: cache-first for the shell
    routes, with a single store named by its version. *)

Module ShellWorker.

Definition VERSION : string := "quotesn-v1".

Definition CORE_ROUTES : list string :=
  [ "/"; "/about/"; "/blog/"; "/quizzes/"; "/contact/"; "/404.html";
    "/images/favicon.ico"; "/images/app-icon-192.png"; "/images/app-icon-512.png" ].

(** [isGET] *)
Definition isGET (req : Request) : bool := method req =? "GET".

(** What the fetch listener answers with. *)
Inductive Handler :=
| Navigation
| StaticAsset.

Section Listeners.

Variable location_origin : string.
Variable network : string -> FetchMode -> option Response.

(** [sameOrigin]: the origin of the parsed URL is the worker's. *)
Definition sameOrigin (u : URL) : bool := origin u =? location_origin.

(** The install listener: [skipWaiting] is chained after [addAll], and
    nothing catches a rejection. *)
Definition on_install : Task Lifecycle :=
  caches_open VERSION ;;
  added <- cache_addAll location_origin network VERSION CORE_ROUTES ;;
  match added with
  | Fulfills _ => ret {| waitUntil := Fulfills JUndefined; skipWaiting := true |}
  | Rejects => ret {| waitUntil := Rejects; skipWaiting := false |}
  end.

(** The activate listener: every store but [VERSION] is deleted. *)
Definition on_activate : Task unit :=
  keys <- caches_keys ;;
  for_each (filter (fun k => negb (k =? VERSION)) keys) caches_delete ;;
  clients_claim.

(** The fetch listener. *)
Definition fetch_listener (request : Request) : option Handler :=
  if negb (isGET request) || negb (sameOrigin (url request)) then None
  else if mode request =? "navigate" then Some Navigation
  else Some StaticAsset.

(** [caches.match('/404.html')] *)
Definition match_404 : Task jsval :=
  caches_match (request_of_path location_origin "/404.html").

(** Navigations: the cached page, else the cached 404 page, else the
    network, and the cached 404 page again when the network fails. *)
Definition navigation (request : Request) : Task settled :=
  cached <- caches_match request ;;
  resp <- (if truthy cached then ret cached else match_404) ;;
  if truthy resp then ret (async_return resp)
  else
    r <- fetch network (href (url request)) AsRequested ;;
    match r with
    | Some response => ret (async_return (JResponse response))
    | None =>
        fallback <- match_404 ;;
        ret (async_return fallback)
    end.

(** Static assets: stale-while-revalidate over all stores, with every
    fetched response put into the [VERSION] store. *)
Definition static_asset (request : Request) : Task settled :=
  cached <- caches_match request ;;
  r <- fetch network (href (url request)) AsRequested ;;
  networkFetch <-
    match r with
    | Some response =>
        caches_open VERSION ;;
        cache_put VERSION request response ;;
        ret (JPromise (Fulfills (JResponse response)))
    | None => ret (JPromise (Fulfills cached))
    end ;;
  ret (async_return (js_or cached networkFetch)).

Definition respondWith (h : Handler) (request : Request) : Task settled :=
  match h with
  | Navigation => navigation request
  | StaticAsset => static_asset request
  end.

Definition on_fetch (request : Request) : Task (option settled) :=
  match fetch_listener request with
  | None => ret None
  | Some h => p <- respondWith h request ;; ret (Some p)
  end.

End Listeners.

End ShellWorker.

(** More concrete worlds. *)
Module Scenario.

Definition home : Response :=
  {| status := 200; type := "basic";
     headers := [("content-type", "text/html")]; body := BodyText "<h1>Quotesn</h1>" |}.

Definition lost : Response :=
  {| status := 200; type := "basic";
     headers := [("content-type", "text/html")]; body := BodyText "<h1>404</h1>" |}.

Definition server_error : Response :=
  {| status := 500; type := "basic";
     headers := [("content-type", "text/html")]; body := BodyText "oops" |}.

(** The shell worker's store with the home page and the 404 page. *)
Definition shell_installed : World :=
  {| caches := [("quotesn-v1",
                 [("https://quotesn.com/", home);
                  ("https://quotesn.com/404.html", lost)]);
                ("analytics", [("https://quotesn.com/", lost)])];
     fetch_log := []; clients_claimed := false |}.

(** A runtime store that holds the about page. *)
Definition about_cached : World :=
  {| caches := [(Deployed.RUNTIME_CACHE,
                 [("https://quotesn.com/about/", home)])];
     fetch_log := []; clients_claimed := false |}.

(** An opaque response: what a cross-origin fetch with mode no-cors
    yields, whatever the server said. *)
Definition opaque : Response :=
  {| status := 0; type := "opaque"; headers := []; body := BodyText "" |}.

(** A cross-origin server that answers 404: seen as such by a fetch
    with mode cors, and as an opaque response with mode no-cors. *)
Definition opaque_without_cors : string -> FetchMode -> option Response :=
  fun _ m => match m with
             | AsRequested => Some Sample.not_found
             | NoCors => Some opaque
             end.

(** A cross-origin stylesheet. *)
Definition stylesheet : Request :=
  {| method := "GET";
     url := {| origin := "https://fonts.example"; pathname := "/css";
               search := "?family=Inter" |};
     mode := "cors"; destination := "style"; accept := Some "text/css,*/*" |}.

(** A partial response, and one that varies on everything: both are
    ok, and the cache takes neither. *)
Definition partial : Response :=
  {| status := 206; type := "basic";
     headers := [("content-type", "image/jpeg")]; body := BodyBase64 "/9j/4A" |}.

Definition varying : Response :=
  {| status := 200; type := "basic";
     headers := [("Content-Type", "text/html"); ("Vary", "Accept-Encoding, *")];
     body := BodyText "<h1>Quotesn</h1>" |}.

(** A network on which one path is missing. *)
Definition all_but (missing : string) : string -> FetchMode -> option Response :=
  fun u _ => if u =? missing then None else Some home.

End Scenario.

(* ================================================================== *)
(** * Properties *)

(** ** The image pattern on a URL pathname *)

Lemma toLowerAscii_dot (c : ascii) :
  Ascii.eqb (toLowerAscii c) "." = Ascii.eqb c ".".
Proof.
  destruct c as [[] [] [] [] [] [] [] []]; reflexivity.
Qed.

Lemma existsb_orb {A : Type} (f g : A -> bool) (l : list A) :
  existsb (fun a => f a || g a) l = existsb f l || existsb g l.
Proof.
  induction l as [|a l IH]; simpl.
  - reflexivity.
  - rewrite IH. destruct (f a), (g a), (existsb f l), (existsb g l); reflexivity.
Qed.

Lemma existsb_andb_l {A : Type} (b : bool) (f : A -> bool) (l : list A) :
  existsb (fun a => b && f a) l = b && existsb f l.
Proof.
  induction l as [|a l IH]; simpl.
  - now rewrite andb_false_r.
  - rewrite IH. destruct b; reflexivity.
Qed.

Lemma existsb_ext_in {A : Type} (f g : A -> bool) (l : list A) :
  (forall a, In a l -> f a = g a) -> existsb f l = existsb g l.
Proof.
  induction l as [|a l IH]; simpl; intros H.
  - reflexivity.
  - rewrite (H a) by now left. rewrite IH; [reflexivity|].
    intros b Hb. apply H. now right.
Qed.

(** After a literal in lower case, on a string without question mark,
    the rest of the pattern succeeds exactly when the string, lower-cased,
    is the literal. *)
Lemma literal_then_end (lit : string) :
  toLowerCase lit = lit ->
  forall s, occurs "?" s = false ->
    match ImagePattern.literal_ci lit s with
    | Some rest => ImagePattern.optional_query_end rest
    | None => false
    end = (toLowerCase s =? lit).
Proof.
  induction lit as [|a lit IH]; intros Hlow s Hq.
  - destruct s as [|c r];
      cbn [ImagePattern.literal_ci ImagePattern.optional_query_end
           toLowerCase String.eqb].
    + reflexivity.
    + cbn [occurs] in Hq. apply orb_false_elim in Hq as [Hc _].
      rewrite Ascii.eqb_sym, Hc. reflexivity.
  - cbn [toLowerCase] in Hlow. injection Hlow as Ha Hlit.
    destruct s as [|b s'];
      cbn [ImagePattern.literal_ci toLowerCase String.eqb].
    + reflexivity.
    + cbn [occurs] in Hq. apply orb_false_elim in Hq as [_ Hq].
      unfold ImagePattern.char_ci. rewrite Ha, Ascii.eqb_sym.
      destruct (Ascii.eqb (toLowerAscii b) a).
      * now apply IH.
      * reflexivity.
Qed.

Lemma alternatives_lower_case :
  forall alt, In alt ImagePattern.alternatives -> toLowerCase alt = alt.
Proof.
  intros alt H. simpl in H.
  repeat (destruct H as [H|H]; [subst alt; reflexivity|]). contradiction.
Qed.

Lemma match_here_no_query (s : string) :
  occurs "?" s = false ->
  ImagePattern.match_here s =
  existsb (fun ext => toLowerCase s =? "." ++ ext) raster_extensions.
Proof.
  intros Hq. destruct s as [|c r].
  - reflexivity.
  - cbn [occurs] in Hq. apply orb_false_elim in Hq as [_ Hq].
    unfold ImagePattern.match_here.
    rewrite (existsb_ext_in _ (fun alt => toLowerCase r =? alt)).
    + change raster_extensions with ImagePattern.alternatives.
      rewrite <- toLowerAscii_dot, <- existsb_andb_l. reflexivity.
    + intros alt Halt. apply literal_then_end.
      * now apply alternatives_lower_case.
      * exact Hq.
Qed.

(** On a pathname (which holds no question mark: the query string is
    in [search]) the pattern tests for a raster extension. *)
Lemma image_pattern_is_extension_test (path : string) :
  occurs "?" path = false ->
  ImagePattern.test path = has_raster_extension path.
Proof.
  unfold has_raster_extension.
  induction path as [|c r IH]; intros Hq.
  - reflexivity.
  - assert (Hr : occurs "?" r = false).
    { cbn [occurs] in Hq. now apply orb_false_elim in Hq as [_ Hq]. }
    cbn [ImagePattern.test]. rewrite (match_here_no_query _ Hq), (IH Hr).
    cbn [toLowerCase endsWith]. rewrite existsb_orb. reflexivity.
Qed.

(** [endsWith] is the suffix relation. *)
Lemma endsWith_suffix (s x : string) :
  endsWith s x = true <-> exists p, s = p ++ x.
Proof.
  induction s as [|c r IH]; cbn [endsWith].
  - rewrite orb_false_r, String.eqb_eq. split.
    + intros <-. now exists "".
    + intros [p Hp]. destruct p; cbn [String.append] in Hp; [congruence|discriminate].
  - rewrite orb_true_iff, String.eqb_eq, IH. split.
    + intros [<-|[p ->]]; [now exists ""|now exists (String c p)].
    + intros [[|d p] Hp]; cbn [String.append] in Hp.
      * now left.
      * injection Hp as -> ->. right. now exists p.
Qed.

Example image_pattern_on_paths :
  map ImagePattern.test
      ["/a.png"; "/a.PNG"; "/img/b.JpEg"; "/c.webp"; "/a.jpgx"; "/apng";
       "/a.png/b"; "/a.png.gif"; "/"]
  = [true; true; true; true; false; false; false; true; false].
Proof. reflexivity. Qed.

(** ** C1: the router *)

(** C1. For every incoming request (its pathname, as a URL's, free of
    question marks) the fetch listener decides as the first matching rule
    of the classification order does: (1) not GET, not intercepted;
    (2) mode navigate or an accept header with the HTML marker,
    network-first with fallback; (3) same origin, stale-while-revalidate
    on the runtime store; (4) destination image or a raster-image
    extension, in any case, at the end of the path, cache-first with the
    image store and the configured cap; (5) otherwise network falling
    back to cache.  The query string plays no part in the decision. *)
Theorem router_first_match_wins
  (VERSION location_origin : string) (req : Request)
  (Hpath : occurs "?" (pathname (url req)) = false) :
  fetch_listener VERSION location_origin req
  = first_match (router_rules VERSION location_origin)
                (router_otherwise VERSION) req
  /\ forall q, fetch_listener VERSION location_origin (with_search q req)
               = fetch_listener VERSION location_origin req.
Proof.
  split; [|reflexivity].
  unfold fetch_listener, router_rules, router_otherwise. cbn [first_match].
  rewrite (image_pattern_is_extension_test _ Hpath).
  destruct (accept req) as [a|]; reflexivity.
Qed.

Lemma router_first_match_wins_witness :
  occurs "?" (pathname (url Sample.cdn_photo)) = false
  /\ (fetch_listener "v2" Sample.site Sample.cdn_photo
      = first_match (router_rules "v2" Sample.site) (router_otherwise "v2")
                    Sample.cdn_photo
      /\ forall q, fetch_listener "v2" Sample.site (with_search q Sample.cdn_photo)
                   = fetch_listener "v2" Sample.site Sample.cdn_photo).
Proof.
  split; [reflexivity|].
  apply (router_first_match_wins "v2" Sample.site Sample.cdn_photo). reflexivity.
Defined.

(** One request for each of the five outcomes. *)
Example fetch_listener_on_samples :
  map (fetch_listener Deployed.VERSION Sample.site)
      [ {| method := "POST";
           url := {| origin := Sample.site; pathname := "/submit"; search := "" |};
           mode := "cors"; destination := ""; accept := Some "text/html" |};
        Sample.about_page;
        Sample.quotes_json;
        Sample.cdn_photo;
        {| method := "GET";
           url := {| origin := "https://fonts.example"; pathname := "/css";
                     search := "?family=Inter.png" |};
           mode := "no-cors"; destination := "style"; accept := None |} ]
  = [ None;
      Some HandleHTMLNavigation;
      Some (StaleWhileRevalidate "quotesn-runtime-v1.0.0-2025-09-10");
      Some (CacheFirstWithLimit "quotesn-runtime-v1.0.0-2025-09-10-img" 60);
      Some (NetworkFallingBackToCache "quotesn-runtime-v1.0.0-2025-09-10") ].
Proof. reflexivity. Qed.

(* ================================================================== *)
(** ** Cache storage lemmas *)

Lemma exec_bind {A B : Type} (m : Task A) (k : A -> Task B) (w : World) :
  exec (bind m k) w = exec (k (result m w)) (exec m w).
Proof.
  unfold exec, result, bind. now destruct (m w).
Qed.

Lemma lookup_app {V : Type} (k : string) (l1 l2 : list (string * V)) :
  lookup k (l1 ++ l2)
  = match lookup k l1 with Some v => Some v | None => lookup k l2 end.
Proof.
  induction l1 as [|[k' v] l1 IH]; cbn [lookup app].
  - reflexivity.
  - now destruct (k' =? k).
Qed.

Lemma lookup_In {V : Type} (k : string) (l : list (string * V)) :
  lookup k l = None <-> ~ In k (map fst l).
Proof.
  induction l as [|[k' v] l IH]; cbn [lookup map fst In].
  - tauto.
  - destruct (String.eqb_spec k' k) as [->|Hne].
    + split; [discriminate|]. intros H. exfalso. apply H. now left.
    + rewrite IH. tauto.
Qed.

Lemma lookup_update_cache (name n : string) (f : Cache -> Cache) (cs : CacheStorage) :
  lookup n (update_cache name f cs)
  = if n =? name then option_map f (lookup n cs) else lookup n cs.
Proof.
  induction cs as [|[k c] cs IH]; cbn [update_cache map lookup fst snd].
  - now destruct (n =? name).
  - fold (update_cache name f cs).
    destruct (String.eqb_spec k n) as [->|Hkn].
    + destruct (n =? name); cbn [lookup]; now rewrite String.eqb_refl.
    + destruct (k =? name); cbn [lookup];
        (destruct (String.eqb_spec k n); [contradiction|]); exact IH.
Qed.

(** Updating a store with a function that keeps the empty cache empty
    updates its entries, and no other store's. *)
Lemma entries_update_cache (name n : string) (f : Cache -> Cache) (cs : CacheStorage) :
  f [] = [] ->
  entries n (update_cache name f cs)
  = if n =? name then f (entries n cs) else entries n cs.
Proof.
  intros Hf. unfold entries. rewrite lookup_update_cache.
  destruct (n =? name); [|reflexivity].
  destruct (lookup n cs); cbn [option_map]; congruence.
Qed.

(** Opening a store changes no store's entries. *)
Lemma entries_caches_open (name n : string) (w : World) :
  entries n (caches (exec (caches_open name) w)) = entries n (caches w).
Proof.
  unfold exec, caches_open, has_cache. cbn [snd].
  destruct (lookup name (caches w)) eqn:Hname; [reflexivity|].
  unfold with_caches, entries. cbn [caches]. rewrite lookup_app.
  destruct (lookup n (caches w)) eqn:Hn; [reflexivity|].
  cbn [lookup]. now destruct (name =? n).
Qed.

(** Removing a key that is not there. *)
Lemma remove_absent {V : Type} (k : string) (l : list (string * V)) :
  ~ In k (map fst l) -> remove k l = l.
Proof.
  induction l as [|[k' v] l IH]; cbn [remove filter map fst In]; intros H.
  - reflexivity.
  - destruct (String.eqb_spec k' k) as [->|Hne]; cbn [negb].
    + exfalso. apply H. now left.
    + f_equal. apply IH. tauto.
Qed.

Lemma remove_not_In {V : Type} (k : string) (l : list (string * V)) :
  ~ In k (map fst (remove k l)).
Proof.
  unfold remove. rewrite in_map_iff. intros [[k' v] [Hk Hin]].
  apply filter_In in Hin as [_ Hneq]. cbn [fst] in *. subst k'.
  now rewrite String.eqb_refl in Hneq.
Qed.

Lemma NoDup_app_disjoint {A : Type} (l1 l2 : list A) :
  NoDup (l1 ++ l2) -> forall a, In a l1 -> ~ In a l2.
Proof.
  induction l1 as [|x l1 IH]; cbn [app]; intros Hnd a Hin.
  - contradiction.
  - inversion Hnd as [|y l Hx Hnd']; subst. destruct Hin as [->|Hin].
    + intros H2. apply Hx. apply in_or_app. now right.
    + now apply IH.
Qed.

(** ** C5: the entry trimmer *)

(** In a cache with distinct keys, the entry at index [i] heads the
    suffix from [i], and its key does not occur further on. *)
Lemma skipn_at (c : Cache) :
  NoDup (map fst c) ->
  forall i e, nth_error c i = Some e ->
    skipn i c = e :: skipn (S i) c /\ ~ In (fst e) (map fst (skipn (S i) c)).
Proof.
  induction c as [|a c IH]; intros Hnd i e Hi.
  - destruct i; discriminate.
  - cbn [map] in Hnd. inversion Hnd as [|x l Hnotin Hnd']; subst.
    destruct i as [|i]; cbn [nth_error] in Hi.
    + injection Hi as ->. cbn [skipn]. split; [reflexivity|exact Hnotin].
    + change (skipn (S i) (a :: c)) with (skipn i c).
      change (skipn (S (S i)) (a :: c)) with (skipn (S i) c).
      now apply IH.
Qed.

(** The loop deletes the keys at indices [from .. from + n - 1], and so
    turns the suffix from [from] into the suffix from [from + n]. *)
Lemma delete_from_skipn (c : Cache) :
  NoDup (map fst c) ->
  forall n from, from + n <= List.length c ->
    delete_from (map fst c) n from (skipn from c) = skipn (from + n) c.
Proof.
  intros Hnd n. induction n as [|n IH]; intros from Hle; cbn [delete_from].
  - now rewrite Nat.add_0_r.
  - destruct (nth_error c from) as [e|] eqn:He.
    + rewrite nth_error_map, He. cbn [option_map].
      destruct (skipn_at c Hnd from e He) as [Hsk Hnotin].
      rewrite Hsk. cbn [remove filter]. rewrite String.eqb_refl. cbn [negb].
      fold (remove (fst e) (skipn (S from) c)).
      rewrite (remove_absent _ _ Hnotin), IH by lia.
      f_equal. lia.
    + apply nth_error_None in He. lia.
Qed.

(** The loop of [trimCache] acts on the entries of its store as
    [delete_from] does, and on no other store. *)
Lemma for_loop_delete (name : string) (keys : list string) (n : nat) :
  forall from w,
    let after := exec (for_loop n from
                         (fun i => cache_delete name (nth_error keys i))) w in
    entries name (caches after) = delete_from keys n from (entries name (caches w))
    /\ forall other, other <> name ->
         entries other (caches after) = entries other (caches w).
Proof.
  induction n as [|n IH]; intros from w; cbn [for_loop delete_from].
  - split; reflexivity.
  - cbv zeta. rewrite exec_bind.
    destruct (IH (S from)
                 (exec (cache_delete name (nth_error keys from)) w)) as [IHa IHb].
    cbv zeta in IHa, IHb. split.
    + rewrite IHa. f_equal.
      unfold exec, cache_delete. cbn [snd].
      destruct (nth_error keys from) as [k|]; [|reflexivity].
      unfold with_caches. cbn [caches].
      rewrite entries_update_cache by reflexivity.
      now rewrite String.eqb_refl.
    + intros other Hother. rewrite (IHb other Hother).
      unfold exec, cache_delete. cbn [snd].
      destruct (nth_error keys from) as [k|]; [|reflexivity].
      unfold with_caches. cbn [caches].
      rewrite entries_update_cache by reflexivity.
      destruct (String.eqb_spec other name); [contradiction|reflexivity].
Qed.

(** What [trimCache] does to the entries of every store. *)
Lemma trimCache_entries (cacheName : string) (maxItems : nat) (w : World) :
  let c := entries cacheName (caches w) in
  let after := exec (trimCache cacheName maxItems) w in
  entries cacheName (caches after)
  = (if (List.length c <=? maxItems)%nat then c
     else delete_from (map fst c) (List.length c - maxItems) 0 c)
  /\ forall other, other <> cacheName ->
       entries other (caches after) = entries other (caches w).
Proof.
  cbv zeta. unfold trimCache.
  rewrite exec_bind. cbv beta. rewrite exec_bind.
  set (w1 := exec (caches_open cacheName) w).
  assert (Hopen : forall n, entries n (caches w1) = entries n (caches w))
    by (intros n; apply entries_caches_open).
  change (exec (cache_keys cacheName) w1) with w1.
  change (result (cache_keys cacheName) w1)
    with (map fst (entries cacheName (caches w1))).
  rewrite Hopen, length_map.
  destruct (List.length (entries cacheName (caches w)) <=? maxItems)%nat.
  - split; [apply Hopen|]. intros other _. apply Hopen.
  - destruct (for_loop_delete cacheName (map fst (entries cacheName (caches w)))
                (List.length (entries cacheName (caches w)) - maxItems) 0 w1)
      as [Ha Hb].
    cbv zeta in Ha, Hb. split.
    + now rewrite Ha, Hopen.
    + intros other Hother. now rewrite (Hb other Hother), Hopen.
Qed.

(** C5. For every store with distinct keys and every cap [maxItems]:
    when the count is at most [maxItems] the store is unchanged;
    otherwise exactly the first [count - maxItems] entries, in insertion
    order, are deleted.  In both cases the count is then at most
    [maxItems], the entries kept are the [maxItems] most recently
    inserted ones, and no other store is touched. *)
Theorem trimCache_keeps_most_recent
  (cacheName : string) (maxItems : nat) (w : World)
  (Hkeys : NoDup (map fst (entries cacheName (caches w)))) :
  let c := entries cacheName (caches w) in
  let after := exec (trimCache cacheName maxItems) w in
  let c' := entries cacheName (caches after) in
  let excess := List.length c - maxItems in
  (List.length c <= maxItems -> c' = c)
  /\ (maxItems < List.length c ->
        c = (firstn excess c ++ c')%list
        /\ List.length (firstn excess c) = excess
        /\ (forall k, In k (map fst (firstn excess c)) -> lookup k c' = None)
        /\ List.length c' = maxItems)
  /\ List.length c' <= maxItems
  /\ c' = most_recent maxItems c
  /\ (forall other, other <> cacheName ->
        entries other (caches after) = entries other (caches w)).
Proof.
  cbv zeta.
  destruct (trimCache_entries cacheName maxItems w) as [Hc Hframe].
  cbv zeta in Hc, Hframe.
  set (c := entries cacheName (caches w)) in *.
  assert (Hskip : entries cacheName
                    (caches (exec (trimCache cacheName maxItems) w))
                  = skipn (List.length c - maxItems) c).
  { rewrite Hc. destruct (Nat.leb_spec (List.length c) maxItems) as [Hle|Hgt].
    - replace (List.length c - maxItems) with 0 by lia. reflexivity.
    - change c with (skipn 0 c) at 3.
      rewrite (delete_from_skipn c Hkeys) by lia. reflexivity. }
  rewrite Hskip. repeat split.
  - intros Hle. replace (List.length c - maxItems) with 0 by lia. reflexivity.
  - now rewrite firstn_skipn.
  - rewrite length_firstn. lia.
  - intros k Hk. apply lookup_In. intros Hin.
    rewrite <- (firstn_skipn (List.length c - maxItems) c) in Hkeys.
    rewrite map_app in Hkeys.
    exact (NoDup_app_disjoint _ _ Hkeys k Hk Hin).
  - rewrite length_skipn. lia.
  - rewrite length_skipn. lia.
  - unfold most_recent. rewrite firstn_rev, rev_involutive. reflexivity.
  - exact Hframe.
Qed.

Lemma trimCache_keeps_most_recent_witness :
  NoDup (map fst (entries "quotesn-runtime-v2-img" (caches Sample.two_generations)))
  /\ 2 < List.length (entries "quotesn-runtime-v2-img" (caches Sample.two_generations))
  /\ entries "quotesn-runtime-v2-img"
       (caches (exec (trimCache "quotesn-runtime-v2-img" 2) Sample.two_generations))
     = [("https://cdn.example/photo.JPG?w=640", Sample.photo);
        ("https://cdn.example/d.png", Sample.not_found)]
  /\ lookup "https://cdn.example/a.png"
       (entries "quotesn-runtime-v2-img"
          (caches (exec (trimCache "quotesn-runtime-v2-img" 2)
                     Sample.two_generations)))
     = None.
Proof.
  assert (Hkeys : NoDup (map fst (entries "quotesn-runtime-v2-img"
                                    (caches Sample.two_generations)))).
  { repeat (constructor; [cbn; intuition discriminate|]). constructor. }
  assert (Hover : 2 < List.length (entries "quotesn-runtime-v2-img"
                                     (caches Sample.two_generations)))
    by (cbn; lia).
  split; [exact Hkeys|]. split; [exact Hover|].
  destruct (trimCache_keeps_most_recent "quotesn-runtime-v2-img" 2
              Sample.two_generations Hkeys) as (_ & Hexcess & _ & Hrecent & _).
  destruct (Hexcess Hover) as (_ & _ & Hgone & _).
  split.
  - rewrite Hrecent. reflexivity.
  - apply Hgone. cbn. now left.
Defined.

(* ================================================================== *)
(** ** C6 and C10: the activation sweep *)

Lemma swept_iff (VERSION name : string) :
  swept VERSION name = true
  <-> startsWith name "quotesn-" = true
      /\ name <> PRECACHE VERSION /\ name <> RUNTIME_CACHE VERSION.
Proof.
  unfold swept. rewrite !andb_true_iff, !negb_true_iff, !String.eqb_neq. tauto.
Qed.

Lemma for_each_delete (l : list string) :
  forall w, caches (exec (for_each l caches_delete) w)
            = fold_left (fun cs name => remove name cs) l (caches w).
Proof.
  induction l as [|name l IH]; intros w; cbn [for_each fold_left].
  - reflexivity.
  - rewrite exec_bind, IH. reflexivity.
Qed.

Lemma fold_remove {V : Type} (l : list string) :
  forall cs : list (string * V),
    fold_left (fun cs name => remove name cs) l cs
    = filter (fun e => negb (existsb (String.eqb (fst e)) l)) cs.
Proof.
  induction l as [|name l IH]; intros cs; cbn [fold_left existsb].
  - induction cs as [|e cs IHcs]; [reflexivity|].
    simpl. f_equal. exact IHcs.
  - rewrite IH. unfold remove.
    induction cs as [|e cs IHcs]; cbn [filter].
    + reflexivity.
    + destruct (fst e =? name); cbn [negb orb filter].
      * exact IHcs.
      * destruct (existsb (String.eqb (fst e)) l); cbn [negb]; now rewrite IHcs.
Qed.

Lemma store_names_filter (f : string -> bool) (cs : CacheStorage) :
  store_names (filter (fun e => f (fst e)) cs) = filter f (store_names cs).
Proof.
  unfold store_names. induction cs as [|e cs IH]; cbn [filter map].
  - reflexivity.
  - destruct (f (fst e)); cbn [map]; now rewrite IH.
Qed.

(** The sweep keeps, contents untouched and in order, exactly the stores
    its filter does not select. *)
Lemma on_activate_caches (VERSION : string) (w : World) :
  caches (exec (on_activate VERSION) w)
  = filter (fun e => negb (swept VERSION (fst e))) (caches w).
Proof.
  unfold on_activate. rewrite exec_bind. cbv beta.
  change (exec caches_keys w) with w.
  change (result caches_keys w) with (store_names (caches w)).
  rewrite exec_bind. cbv beta.
  change (caches (exec clients_claim ?x)) with (caches x).
  rewrite for_each_delete, fold_remove.
  apply filter_ext_in. intros e He. f_equal.
  fold (swept VERSION).
  destruct (swept VERSION (fst e)) eqn:Hs.
  - apply existsb_exists. exists (fst e). split.
    + apply filter_In. split; [|exact Hs].
      unfold store_names. now apply in_map.
    + apply String.eqb_refl.
  - destruct (existsb _ _) eqn:Hex; [|reflexivity].
    apply existsb_exists in Hex as [name [Hin Heq]].
    apply String.eqb_eq in Heq. subst name.
    apply filter_In in Hin as [_ Hin]. congruence.
Qed.

Lemma on_activate_names (VERSION : string) (w : World) (name : string) :
  In name (store_names (caches (exec (on_activate VERSION) w)))
  <-> In name (store_names (caches w)) /\ swept VERSION name = false.
Proof.
  rewrite on_activate_caches.
  rewrite (store_names_filter (fun n => negb (swept VERSION n))).
  rewrite filter_In, negb_true_iff. reflexivity.
Qed.

Lemma length_append (s t : string) :
  String.length (s ++ t) = String.length s + String.length t.
Proof.
  induction s as [|c s IH]; simpl; congruence.
Qed.

Lemma append_img_neq (s : string) : s ++ "-img" <> s.
Proof.
  intros H. apply (f_equal String.length) in H.
  rewrite length_append in H. cbn [String.length] in H. lia.
Qed.

(** The image store of a generation is selected by the filter of that
    very generation. *)
Lemma image_store_swept (VERSION : string) :
  swept VERSION (RUNTIME_CACHE VERSION ++ "-img") = true.
Proof.
  apply swept_iff. split; [reflexivity|]. split.
  - unfold RUNTIME_CACHE, PRECACHE. cbn [String.append]. discriminate.
  - apply append_img_neq.
Qed.

(** C6. Activation deletes exactly the stores whose name starts with
    the namespace and is neither the current precache name nor the
    current runtime name; the other stores are kept as they are.  With
    the current version different from a prior one, no store of the
    prior version remains: not its precache store, not its runtime store,
    and not its image store (unless the current version is the prior one
    followed by "-img", when that name is the current runtime store). *)
Theorem activate_sweeps_stale_generations
  (VERSION prior : string) (w : World) (Hprior : prior <> VERSION) :
  let after := exec (on_activate VERSION) w in
  caches after = filter (fun e => negb (swept VERSION (fst e))) (caches w)
  /\ (forall name, In name (store_names (caches w)) ->
        (~ In name (store_names (caches after))
         <-> startsWith name "quotesn-" = true
             /\ name <> PRECACHE VERSION /\ name <> RUNTIME_CACHE VERSION))
  /\ (forall name, In name (store_names (caches after)) ->
        In name (store_names (caches w)))
  /\ ~ In (PRECACHE prior) (store_names (caches after))
  /\ ~ In (RUNTIME_CACHE prior) (store_names (caches after))
  /\ (VERSION <> prior ++ "-img" ->
      ~ In (RUNTIME_CACHE prior ++ "-img") (store_names (caches after))).
Proof.
  cbv zeta. split; [apply on_activate_caches|].
  assert (Hgone : forall name, swept VERSION name = true ->
                    ~ In name (store_names (caches (exec (on_activate VERSION) w)))).
  { intros name Hs Hin. apply on_activate_names in Hin as [_ Hin]. congruence. }
  split; [|split; [|split; [|split]]].
  - intros name Hin. split.
    + intros Hnot. apply swept_iff.
      destruct (swept VERSION name) eqn:Hs; [reflexivity|].
      exfalso. apply Hnot. apply on_activate_names. now split.
    + intros Hs. apply Hgone. now apply swept_iff.
  - intros name Hin. now apply on_activate_names in Hin as [Hin _].
  - apply Hgone, swept_iff. split; [reflexivity|]. split.
    + unfold PRECACHE. cbn [String.append]. intros H. injection H as H. contradiction.
    + unfold PRECACHE, RUNTIME_CACHE. cbn [String.append]. discriminate.
  - apply Hgone, swept_iff. split; [reflexivity|]. split.
    + unfold PRECACHE, RUNTIME_CACHE. cbn [String.append]. discriminate.
    + unfold RUNTIME_CACHE. cbn [String.append]. intros H. injection H as H. contradiction.
  - intros Himg. apply Hgone, swept_iff. split; [reflexivity|]. split.
    + unfold PRECACHE, RUNTIME_CACHE. cbn [String.append]. discriminate.
    + unfold RUNTIME_CACHE. cbn [String.append]. intros H. injection H as H.
      apply Himg. now rewrite <- H.
Qed.

Lemma activate_sweeps_stale_generations_witness :
  "v1" <> "v2"
  /\ store_names (caches Sample.two_generations)
     = ["quotesn-precache-v1"; "quotesn-runtime-v1"; "quotesn-runtime-v1-img";
        "quotesn-precache-v2"; "quotesn-runtime-v2"; "quotesn-runtime-v2-img";
        "analytics"]
  /\ store_names (caches (exec (on_activate "v2") Sample.two_generations))
     = ["quotesn-precache-v2"; "quotesn-runtime-v2"; "analytics"]
  /\ ~ In (RUNTIME_CACHE "v1")
         (store_names (caches (exec (on_activate "v2") Sample.two_generations))).
Proof.
  assert (Hprior : "v1" <> "v2") by discriminate.
  split; [exact Hprior|]. split; [reflexivity|].
  destruct (activate_sweeps_stale_generations "v2" "v1" Sample.two_generations Hprior)
    as (Hcaches & _ & _ & _ & Hruntime & _).
  split; [|exact Hruntime].
  rewrite Hcaches. reflexivity.
Defined.

(** An activation without a change of version: the stores of the one
    generation are there before, and the image store is not there
    after. *)
Example activate_same_version :
  store_names
    (caches (exec (on_activate Deployed.VERSION)
               {| caches := [(PRECACHE Deployed.VERSION, []);
                             (Deployed.RUNTIME_CACHE, []);
                             ((Deployed.RUNTIME_CACHE ++ "-img")%string,
                              Sample.image_store)];
                  fetch_log := [];
                  clients_claimed := true |}))
  = [PRECACHE Deployed.VERSION; Deployed.RUNTIME_CACHE].
Proof. reflexivity. Qed.

(** C10. The store the fetch listener gives to the cache-first strategy
    is the runtime store name followed by "-img".  The filter of the
    activate listener selects that name, whatever the version: after
    every activation the store is gone and its entries with it, and the
    only namespaced stores left are the precache and the runtime store. *)
Theorem activate_deletes_current_image_store (VERSION : string) (w : World) :
  let image_store := RUNTIME_CACHE VERSION ++ "-img" in
  let after := exec (on_activate VERSION) w in
  (forall location_origin req cacheName maxItems,
      fetch_listener VERSION location_origin req
      = Some (CacheFirstWithLimit cacheName maxItems) ->
      cacheName = image_store)
  /\ swept VERSION image_store = true
  /\ ~ In image_store (store_names (caches after))
  /\ entries image_store (caches after) = []
  /\ (forall name, In name (store_names (caches after)) ->
        startsWith name "quotesn-" = true ->
        name = PRECACHE VERSION \/ name = RUNTIME_CACHE VERSION).
Proof.
  cbv zeta. split; [|split; [|split; [|split]]].
  - intros location_origin req cacheName maxItems. unfold fetch_listener.
    repeat match goal with
           | |- context [if ?b then _ else _] => destruct b
           end; intros H; try discriminate H.
    now injection H as <- _.
  - apply image_store_swept.
  - intros Hin. apply on_activate_names in Hin as [_ Hin].
    rewrite image_store_swept in Hin. discriminate.
  - unfold entries.
    replace (lookup (RUNTIME_CACHE VERSION ++ "-img")
               (caches (exec (on_activate VERSION) w))) with (@None Cache);
      [reflexivity|].
    symmetry. apply lookup_In. intros Hin.
    apply on_activate_names in Hin as [_ Hin].
    rewrite image_store_swept in Hin. discriminate.
  - intros name Hin Hns. apply on_activate_names in Hin as [_ Hin].
    unfold swept in Hin. rewrite Hns in Hin. cbn [andb] in Hin.
    destruct (String.eqb_spec name (PRECACHE VERSION)) as [E|_]; [now left|].
    destruct (String.eqb_spec name (RUNTIME_CACHE VERSION)) as [E|_]; [now right|].
    discriminate.
Qed.

(* ================================================================== *)
(** ** Running the strategies *)

Lemma run_bind {A B : Type} (m : Task A) (k : A -> Task B) (w : World) :
  bind m k w = k (result m w) (exec m w).
Proof.
  unfold exec, result, bind. now destruct (m w).
Qed.

(** A store that holds an entry exists, and opening it changes nothing. *)
Lemma caches_open_hit (name key : string) (r : Response) (w : World) :
  lookup key (entries name (caches w)) = Some r ->
  exec (caches_open name) w = w.
Proof.
  unfold exec, caches_open, has_cache, entries. cbn [snd].
  destruct (lookup name (caches w)); [reflexivity|discriminate].
Qed.

Lemma cache_match_after_open (name : string) (request : Request) (w : World) :
  result (cache_match name request) (exec (caches_open name) w)
  = result (cache_match name request) w.
Proof.
  unfold result, cache_match. cbn [fst]. now rewrite entries_caches_open.
Qed.

Lemma has_cache_caches_open (name : string) (w : World) :
  has_cache name (caches (exec (caches_open name) w)) = true.
Proof.
  unfold exec, caches_open. cbn [snd].
  destruct (has_cache name (caches w)) eqn:Hname; [exact Hname|].
  unfold has_cache in *. unfold with_caches. cbn [caches]. rewrite lookup_app.
  destruct (lookup name (caches w)); [discriminate|].
  cbn [lookup]. now rewrite String.eqb_refl.
Qed.

(** Updating a store that exists updates its entries. *)
Lemma entries_update_existing (name : string) (f : Cache -> Cache) (cs : CacheStorage) :
  has_cache name cs = true ->
  entries name (update_cache name f cs) = f (entries name cs).
Proof.
  unfold has_cache, entries. rewrite lookup_update_cache, String.eqb_refl.
  destruct (lookup name cs); [reflexivity|discriminate].
Qed.

(** What the cache takes: any status but 206, and any [Vary] header
    without an asterisk among its field values. *)
Example put_accepts_on_samples :
  map put_accepts
      [Sample.photo; Sample.not_found; Scenario.server_error; Scenario.opaque;
       Scenario.partial; Scenario.varying;
       {| status := 200; type := "basic";
          headers := [("vary", "Accept-Encoding"); ("VARY", " * ")];
          body := BodyText "" |};
       {| status := 200; type := "basic";
          headers := [("Vary", "Accept-Encoding, Accept"); ("X-Note", "*")];
          body := BodyText "" |}]
  = [true; true; true; true; false; false; false; true].
Proof. reflexivity. Qed.

(** The two outcomes of [cache.put]. *)
Lemma cache_put_accepted (n : string) (request : Request) (response : Response)
      (w : World) :
  put_accepts response = true ->
  cache_put n request response w
  = (Fulfills JUndefined,
     with_caches
       (update_cache n
          (fun c => (remove (href (url request)) c
                     ++ [(href (url request), response)])%list)) w).
Proof. intros H. unfold cache_put. now rewrite H. Qed.

Lemma cache_put_refused (n : string) (request : Request) (response : Response)
      (w : World) :
  put_accepts response = false ->
  cache_put n request response w = (Rejects, w).
Proof. intros H. unfold cache_put. now rewrite H. Qed.

(** A put changes the entries of its own store at most. *)
Lemma entries_cache_put_other (n name : string) (request : Request)
      (response : Response) (w : World) :
  name <> n ->
  entries name (caches (exec (cache_put n request response) w))
  = entries name (caches w).
Proof.
  intros Hne. unfold exec, cache_put.
  destruct (put_accepts response); cbn [snd]; [|reflexivity].
  unfold with_caches, entries. cbn [caches]. rewrite lookup_update_cache.
  now destruct (String.eqb_spec name n).
Qed.

(** An accepted put on a store that exists. *)
Lemma entries_cache_put (n : string) (request : Request) (response : Response)
      (w : World) :
  put_accepts response = true ->
  has_cache n (caches w) = true ->
  entries n (caches (exec (cache_put n request response) w))
  = (remove (href (url request)) (entries n (caches w))
     ++ [(href (url request), response)])%list.
Proof.
  intros Hput Hhas. unfold exec. rewrite cache_put_accepted by exact Hput.
  cbn [snd]. unfold with_caches. cbn [caches].
  now apply entries_update_existing.
Qed.

Lemma result_cache_put (n : string) (request : Request) (response : Response)
      (w : World) :
  result (cache_put n request response) w
  = if put_accepts response then Fulfills JUndefined else Rejects.
Proof. unfold result, cache_put. now destruct (put_accepts response). Qed.

(** A refused put changes nothing. *)
Lemma exec_cache_put_refused (n : string) (request : Request)
      (response : Response) (w : World) :
  put_accepts response = false ->
  exec (cache_put n request response) w = w.
Proof. intros H. unfold exec. now rewrite cache_put_refused. Qed.

(** The embedded image is answered by the platform, whatever the network. *)
Lemma fallbackImg_outcome (network : string -> FetchMode -> option Response) :
  fetch_outcome network fallbackImg AsRequested = Some placeholder_png.
Proof. reflexivity. Qed.

Ltac run := repeat (rewrite run_bind; cbv beta).

Ltac prim :=
  cbn [result exec fst snd fetch cache_match caches_match ret
       cache_keys cache_delete].

Section Strategies.

Variable VERSION : string.
Variable OFFLINE_HTML : string.
Variable network : string -> FetchMode -> option Response.

(** *** Network-first with fallback *)

Lemma navigation_online (request : Request) (response : Response) (w : World) :
  fetch_outcome network (href (url request)) AsRequested = Some response ->
  result (handleHTMLNavigation VERSION OFFLINE_HTML network request) w
  = Fulfills (JResponse response)
  /\ (put_accepts response = true ->
      lookup (href (url request))
        (entries (RUNTIME_CACHE VERSION)
           (caches (exec (handleHTMLNavigation VERSION OFFLINE_HTML network request)
                      w)))
      = Some response).
Proof.
  intros Hnet. unfold handleHTMLNavigation. split.
  - unfold result. rewrite run_bind. prim. rewrite Hnet. run. reflexivity.
  - intros Hput. unfold exec at 1. rewrite run_bind. prim. rewrite Hnet. run.
    change (snd (ret ?v ?x)) with x.
    rewrite entries_cache_put
      by (exact Hput || apply has_cache_caches_open).
    rewrite lookup_app.
    rewrite (proj2 (lookup_In _ _) (remove_not_In _ _)).
    cbn [lookup]. now rewrite String.eqb_refl.
Qed.

Lemma navigation_offline (request : Request) (w : World) :
  fetch_outcome network (href (url request)) AsRequested = None ->
  result (handleHTMLNavigation VERSION OFFLINE_HTML network request) w
  = Fulfills
      (JResponse
         (match match_all (href (url request)) (caches w) with
          | Some cached => cached
          | None => new_Response OFFLINE_HTML
                      [("Content-Type", "text/html; charset=utf-8")] 200
          end))
  /\ caches (exec (handleHTMLNavigation VERSION OFFLINE_HTML network request) w)
     = caches w.
Proof.
  intros Hnet. unfold result at 1, exec at 1, handleHTMLNavigation.
  rewrite run_bind. prim. rewrite Hnet. run. prim. cbn [caches].
  destruct (match_all (href (url request)) (caches w)); split; reflexivity.
Qed.

(** *** Stale-while-revalidate *)

Lemma staleWhileRevalidate_run (request : Request) (cacheName : string) (w : World) :
  let cached := result (cache_match cacheName request) w in
  let fetched := fetch_outcome network (href (url request)) AsRequested in
  result (staleWhileRevalidate network request cacheName) w
  = async_return
      (js_or (js_or cached
                (JPromise (Fulfills (match fetched with
                                     | Some response => JResponse response
                                     | None => JNull
                                     end))))
             (JResponse (new_Response "" [] 504)))
  /\ forall name,
       entries name (caches (exec (staleWhileRevalidate network request cacheName) w))
       = match fetched with
         | Some response =>
             if usable response
             then entries name
                    (caches (exec (cache_put cacheName request response)
                               (exec (caches_open cacheName) w)))
             else entries name (caches w)
         | None => entries name (caches w)
         end.
Proof.
  cbv zeta. unfold result at 1, exec at 1, staleWhileRevalidate.
  run. rewrite cache_match_after_open. prim.
  destruct (fetch_outcome network (href (url request)) AsRequested) as [response|].
  - run. cbn [truthy andb]. destruct (usable response).
    + unfold result, exec. run. unfold result, exec, cache_put.
      destruct (put_accepts response); split; reflexivity.
    + prim. cbn [caches]. split; [reflexivity|].
      intros name. apply entries_caches_open.
  - prim. cbn [caches]. split; [reflexivity|].
    intros name. apply entries_caches_open.
Qed.

(** Without a cached entry and without the network, the promise the
    strategy returns is fulfilled with [null]: the promise object is
    truthy, so the 504 response after it is never reached. *)
Lemma staleWhileRevalidate_miss_offline
      (request : Request) (cacheName : string) (w : World) :
  lookup (href (url request)) (entries cacheName (caches w)) = None ->
  fetch_outcome network (href (url request)) AsRequested = None ->
  result (staleWhileRevalidate network request cacheName) w = Fulfills JNull.
Proof.
  intros Hmiss Hnet.
  destruct (staleWhileRevalidate_run request cacheName w) as [Hres _].
  cbv zeta in Hres. rewrite Hres, Hnet.
  unfold result, cache_match. cbn [fst]. rewrite Hmiss. reflexivity.
Qed.

(** *** Cache-first with a cap *)

Lemma cacheFirstWithLimit_hit
      (request : Request) (cacheName : string) (maxItems : nat)
      (cached : Response) (w : World) :
  lookup (href (url request)) (entries cacheName (caches w)) = Some cached ->
  cacheFirstWithLimit network request cacheName maxItems w
  = (Fulfills (JResponse cached), w).
Proof.
  intros Hhit. unfold cacheFirstWithLimit. run.
  rewrite (caches_open_hit _ _ _ _ Hhit). prim. rewrite Hhit. reflexivity.
Qed.

(** A miss, in full.  A usable response that the cache does not take
    makes the awaited put throw, and the handler ends in its [catch]. *)
Lemma cacheFirstWithLimit_miss_run
      (request : Request) (cacheName : string) (maxItems : nat) (w : World) :
  lookup (href (url request)) (entries cacheName (caches w)) = None ->
  cacheFirstWithLimit network request cacheName maxItems w
  = match fetch_outcome network (href (url request)) NoCors with
    | Some response =>
        if usable response
        then
          if put_accepts response
          then (Fulfills (JResponse response),
                exec (trimCache cacheName maxItems)
                  (exec (cache_put cacheName request response)
                     (exec (fetch network (href (url request)) NoCors)
                        (exec (caches_open cacheName) w))))
          else (Fulfills (JResponse placeholder_png),
                exec (fetch network fallbackImg AsRequested)
                  (exec (fetch network (href (url request)) NoCors)
                     (exec (caches_open cacheName) w)))
        else (Fulfills (JResponse response),
              exec (fetch network (href (url request)) NoCors)
                (exec (caches_open cacheName) w))
    | None =>
        (Fulfills (JResponse placeholder_png),
         exec (fetch network fallbackImg AsRequested)
           (exec (fetch network (href (url request)) NoCors)
              (exec (caches_open cacheName) w)))
    end.
Proof.
  intros Hmiss. unfold cacheFirstWithLimit.
  run. rewrite cache_match_after_open.
  replace (result (cache_match cacheName request) w) with JUndefined
    by (unfold result, cache_match; cbn [fst]; now rewrite Hmiss).
  cbn [truthy]. run.
  change (result (fetch network (href (url request)) NoCors) ?x)
    with (fetch_outcome network (href (url request)) NoCors).
  destruct (fetch_outcome network (href (url request)) NoCors) as [response|].
  - cbn [truthy andb]. destruct (usable response); [|reflexivity].
    run. rewrite result_cache_put.
    destruct (put_accepts response) eqn:Hput.
    + run. reflexivity.
    + rewrite (exec_cache_put_refused _ _ _ _ Hput). run. reflexivity.
  - run. reflexivity.
Qed.

Lemma cacheFirstWithLimit_miss
      (request : Request) (cacheName : string) (maxItems : nat) (w : World) :
  lookup (href (url request)) (entries cacheName (caches w)) = None ->
  let fetched := fetch_outcome network (href (url request)) NoCors in
  result (cacheFirstWithLimit network request cacheName maxItems) w
  = Fulfills (JResponse (match fetched with
                         | Some response =>
                             if usable response && negb (put_accepts response)
                             then placeholder_png
                             else response
                         | None => placeholder_png
                         end))
  /\ forall name,
       (match fetched with Some response => usable response | None => false end)
       = false ->
       entries name
         (caches (exec (cacheFirstWithLimit network request cacheName maxItems) w))
       = entries name (caches w).
Proof.
  intros Hmiss. cbv zeta. unfold result, exec.
  rewrite (cacheFirstWithLimit_miss_run request cacheName maxItems w Hmiss).
  destruct (fetch_outcome network (href (url request)) NoCors) as [response|].
  - destruct (usable response); [destruct (put_accepts response)|];
      (split; [reflexivity|]); intros name Hbad; try discriminate Hbad.
    cbn [snd]. apply (entries_caches_open cacheName name w).
  - split; [reflexivity|]. intros name _. cbn [snd].
    apply (entries_caches_open cacheName name w).
Qed.

(** *** Network falling back to cache *)

Lemma networkFallingBackToCache_run
      (request : Request) (cacheName : string) (w : World) :
  let fetched := fetch_outcome network (href (url request)) AsRequested in
  result (networkFallingBackToCache network request cacheName) w
  = Fulfills
      (JResponse
         (match fetched with
          | Some response => response
          | None => match match_all (href (url request)) (caches w) with
                    | Some cached => cached
                    | None => new_Response "" [] 504
                    end
          end))
  /\ ((match fetched with Some response => usable response | None => false end)
      = false ->
      caches (exec (networkFallingBackToCache network request cacheName) w)
      = caches w).
Proof.
  cbv zeta. unfold result at 1, exec at 1, networkFallingBackToCache.
  run. prim.
  destruct (fetch_outcome network (href (url request)) AsRequested) as [response|].
  - run. cbn [truthy andb]. split.
    + destruct (usable response); reflexivity.
    + intros Hbad. rewrite Hbad. reflexivity.
  - run. prim. cbn [caches].
    destruct (match_all (href (url request)) (caches w)); split; reflexivity.
Qed.

End Strategies.

(* ================================================================== *)
(** ** C7: the offline document *)

(** C7. Network-first with fallback: when the network fetch of the
    request fails and no store holds an entry for it, the handler
    resolves to a response of status 200 whose content type is
    text/html and whose body is the configured offline document. *)
Theorem navigation_offline_fallback
  (VERSION OFFLINE_HTML : string)
  (network : string -> FetchMode -> option Response)
  (request : Request) (w : World)
  (Hfail : fetch_outcome network (href (url request)) AsRequested = None)
  (Hmiss : match_all (href (url request)) (caches w) = None) :
  exists r,
    result (handleHTMLNavigation VERSION OFFLINE_HTML network request) w
    = Fulfills (JResponse r)
    /\ status r = 200
    /\ headers_get (headers r) "content-type" = Some "text/html; charset=utf-8"
    /\ body r = BodyText OFFLINE_HTML.
Proof.
  destruct (navigation_offline VERSION OFFLINE_HTML network request w Hfail)
    as [Hres _].
  rewrite Hmiss in Hres. eexists. split; [exact Hres|].
  repeat split.
Qed.

Lemma navigation_offline_fallback_witness :
  fetch_outcome Sample.offline (href (url Sample.about_page)) AsRequested = None
  /\ match_all (href (url Sample.about_page)) (caches Sample.fresh) = None
  /\ exists r,
       result (handleHTMLNavigation Deployed.VERSION Sample.offline_page
                 Sample.offline Sample.about_page) Sample.fresh
       = Fulfills (JResponse r)
       /\ status r = 200
       /\ headers_get (headers r) "content-type" = Some "text/html; charset=utf-8"
       /\ body r = BodyText Sample.offline_page.
Proof.
  split; [reflexivity|]. split; [reflexivity|].
  apply (navigation_offline_fallback Deployed.VERSION Sample.offline_page
           Sample.offline Sample.about_page Sample.fresh); reflexivity.
Defined.

(* ================================================================== *)
(** ** C8 and C9: cache-first with a cap *)

(** C8. Cache-first with a cap: when the request has no cached entry
    and its network fetch fails, the strategy resolves to the response
    of the embedded [data:] URL, a PNG of fixed content that depends
    neither on the request nor on the network; it does not reject, and
    it stores nothing. *)
Theorem cacheFirstWithLimit_offline_placeholder
  (network : string -> FetchMode -> option Response)
  (request : Request) (cacheName : string) (maxItems : nat) (w : World)
  (Hmiss : lookup (href (url request)) (entries cacheName (caches w)) = None)
  (Hfail : fetch_outcome network (href (url request)) NoCors = None) :
  result (cacheFirstWithLimit network request cacheName maxItems) w
  = Fulfills (JResponse placeholder_png)
  /\ (exists payload,
        fallbackImg = "data:image/png;base64," ++ payload
        /\ body placeholder_png = BodyBase64 payload)
  /\ status placeholder_png = 200
  /\ headers_get (headers placeholder_png) "content-type" = Some "image/png"
  /\ result (cacheFirstWithLimit network request cacheName maxItems) w <> Rejects
  /\ (forall name,
        entries name
          (caches (exec (cacheFirstWithLimit network request cacheName maxItems) w))
        = entries name (caches w)).
Proof.
  destruct (cacheFirstWithLimit_miss network request cacheName maxItems w Hmiss)
    as [Hres Hkeep].
  cbv zeta in Hres, Hkeep. rewrite Hfail in Hres, Hkeep.
  rewrite Hres. split; [reflexivity|]. split.
  - eexists. split; reflexivity.
  - split; [reflexivity|]. split; [reflexivity|]. split; [discriminate|].
    intros name. now apply Hkeep.
Qed.

Lemma cacheFirstWithLimit_offline_placeholder_witness :
  lookup (href (url Sample.cdn_photo))
    (entries "quotesn-runtime-v2-img" (caches Sample.fresh)) = None
  /\ fetch_outcome Sample.offline (href (url Sample.cdn_photo)) NoCors = None
  /\ result (cacheFirstWithLimit Sample.offline Sample.cdn_photo
               "quotesn-runtime-v2-img" IMAGE_CACHE_MAX_ITEMS) Sample.fresh
     = Fulfills (JResponse placeholder_png).
Proof.
  split; [reflexivity|]. split; [reflexivity|].
  apply (cacheFirstWithLimit_offline_placeholder Sample.offline Sample.cdn_photo
           "quotesn-runtime-v2-img" IMAGE_CACHE_MAX_ITEMS Sample.fresh);
    reflexivity.
Defined.

(** C9. Cache-first with a cap: when the store holds an entry for the
    request, the strategy resolves to that entry and leaves the world as
    it was: no [fetch] call is logged and no store is modified. *)
Theorem cacheFirstWithLimit_hit_touches_nothing
  (network : string -> FetchMode -> option Response)
  (request : Request) (cacheName : string) (maxItems : nat)
  (cached : Response) (w : World)
  (Hhit : lookup (href (url request)) (entries cacheName (caches w)) = Some cached) :
  let run := cacheFirstWithLimit network request cacheName maxItems in
  result run w = Fulfills (JResponse cached)
  /\ fetch_log (exec run w) = fetch_log w
  /\ caches (exec run w) = caches w
  /\ exec run w = w.
Proof.
  cbv zeta. unfold result, exec.
  rewrite (cacheFirstWithLimit_hit network request cacheName maxItems cached w Hhit).
  cbn [fst snd]. repeat split.
Qed.

Lemma cacheFirstWithLimit_hit_touches_nothing_witness :
  lookup (href (url Sample.cdn_photo))
    (entries "quotesn-runtime-v2-img" (caches Sample.two_generations))
  = Some Sample.photo
  /\ cacheFirstWithLimit Sample.offline Sample.cdn_photo
       "quotesn-runtime-v2-img" IMAGE_CACHE_MAX_ITEMS Sample.two_generations
     = (Fulfills (JResponse Sample.photo), Sample.two_generations).
Proof.
  assert (Hhit : lookup (href (url Sample.cdn_photo))
                   (entries "quotesn-runtime-v2-img"
                      (caches Sample.two_generations))
                 = Some Sample.photo) by reflexivity.
  split; [exact Hhit|].
  destruct (cacheFirstWithLimit_hit_touches_nothing Sample.offline Sample.cdn_photo
              "quotesn-runtime-v2-img" IMAGE_CACHE_MAX_ITEMS Sample.photo
              Sample.two_generations Hhit) as (Hres & _ & _ & Hworld).
  cbv zeta in Hres, Hworld. unfold result in Hres. unfold exec in Hworld.
  destruct (cacheFirstWithLimit Sample.offline Sample.cdn_photo
              "quotesn-runtime-v2-img" IMAGE_CACHE_MAX_ITEMS
              Sample.two_generations) as [p w'].
  cbn [fst snd] in Hres, Hworld. now rewrite Hres, Hworld.
Defined.

(* ================================================================== *)
(** ** C4: responses that are neither ok nor opaque *)

(** C4, as stated, fails on network-first with fallback: a 404 answer
    to a navigation is not usable, no store holds it before the handler
    runs, and the runtime store holds it afterwards. *)
Lemma unusable_navigation_response_is_stored :
  usable Sample.not_found = false
  /\ fetch_outcome (Sample.always Sample.not_found)
       (href (url Sample.about_page)) AsRequested = Some Sample.not_found
  /\ match_all (href (url Sample.about_page)) (caches Sample.fresh) = None
  /\ lookup (href (url Sample.about_page))
       (entries Deployed.RUNTIME_CACHE
          (caches (exec (handleHTMLNavigation Deployed.VERSION Sample.offline_page
                           (Sample.always Sample.not_found) Sample.about_page)
                     Sample.fresh)))
     = Some Sample.not_found.
Proof. repeat split. Qed.

(** C4, amended.  Let the fetch a strategy makes (cache-first fetches
    with mode no-cors, the others as the request asks) be answered with
    a response that is neither ok nor opaque.  Then
    stale-while-revalidate, cache-first with a cap and network falling
    back to cache leave the entries of every store as they were.
    Network-first with fallback and network falling back to cache
    resolve to that response as it is; so do stale-while-revalidate and
    cache-first with a cap when their store has no entry for the
    request, and with an entry they resolve to the entry. *)
Theorem unusable_response_returned_not_stored
  (VERSION OFFLINE_HTML : string)
  (network : string -> FetchMode -> option Response)
  (request : Request) (cacheName : string) (maxItems : nat) (w : World) :
  let cached_or (response : Response) :=
    match lookup (href (url request)) (entries cacheName (caches w)) with
    | Some cached => cached
    | None => response
    end in
  (forall response,
      fetch_outcome network (href (url request)) AsRequested = Some response ->
      usable response = false ->
      result (handleHTMLNavigation VERSION OFFLINE_HTML network request) w
      = Fulfills (JResponse response)
      /\ result (networkFallingBackToCache network request cacheName) w
         = Fulfills (JResponse response)
      /\ result (staleWhileRevalidate network request cacheName) w
         = Fulfills (JResponse (cached_or response))
      /\ (forall name,
            entries name
              (caches (exec (staleWhileRevalidate network request cacheName) w))
            = entries name (caches w))
      /\ caches (exec (networkFallingBackToCache network request cacheName) w)
         = caches w)
  /\ (forall response,
        fetch_outcome network (href (url request)) NoCors = Some response ->
        usable response = false ->
        result (cacheFirstWithLimit network request cacheName maxItems) w
        = Fulfills (JResponse (cached_or response))
        /\ (forall name,
              entries name
                (caches (exec (cacheFirstWithLimit network request cacheName
                                 maxItems) w))
              = entries name (caches w))).
Proof.
  cbv zeta. split.
  - intros response Hnet Hbad.
    destruct (navigation_online VERSION OFFLINE_HTML network request response w
                Hnet) as [Hnav _].
    destruct (networkFallingBackToCache_run network request cacheName w)
      as [Hnfb Hnfb_keep].
    destruct (staleWhileRevalidate_run network request cacheName w)
      as [Hswr Hswr_keep].
    cbv zeta in Hnfb, Hnfb_keep, Hswr, Hswr_keep.
    rewrite Hnet in Hnfb, Hnfb_keep, Hswr, Hswr_keep.
    rewrite Hbad in Hswr_keep.
    split; [exact Hnav|]. split; [exact Hnfb|]. split.
    { rewrite Hswr. unfold result, cache_match. cbn [fst].
      now destruct (lookup (href (url request)) (entries cacheName (caches w))). }
    split; [exact Hswr_keep|exact (Hnfb_keep Hbad)].
  - intros response Hnet Hbad.
    destruct (lookup (href (url request)) (entries cacheName (caches w)))
      as [cached|] eqn:Hcached.
    + pose proof (cacheFirstWithLimit_hit network request cacheName maxItems
                    cached w Hcached) as Hhit.
      split.
      * unfold result. now rewrite Hhit.
      * intros name. unfold exec. now rewrite Hhit.
    + destruct (cacheFirstWithLimit_miss network request cacheName maxItems w
                  Hcached) as [Hcf Hcf_keep].
      cbv zeta in Hcf, Hcf_keep. rewrite Hnet in Hcf, Hcf_keep.
      rewrite Hbad in Hcf. cbn [andb] in Hcf.
      split; [exact Hcf|].
      intros name. now apply Hcf_keep.
Qed.

Lemma unusable_response_returned_not_stored_witness :
  fetch_outcome Scenario.opaque_without_cors
    (href (url Scenario.stylesheet)) AsRequested = Some Sample.not_found
  /\ usable Sample.not_found = false
  /\ fetch_outcome Scenario.opaque_without_cors
       (href (url Scenario.stylesheet)) NoCors = Some Scenario.opaque
  /\ fetch_listener Deployed.VERSION Sample.site Scenario.stylesheet
     = Some (NetworkFallingBackToCache Deployed.RUNTIME_CACHE)
  /\ result (networkFallingBackToCache Scenario.opaque_without_cors
               Scenario.stylesheet Deployed.RUNTIME_CACHE) Sample.two_generations
     = Fulfills (JResponse Sample.not_found)
  /\ caches (exec (networkFallingBackToCache Scenario.opaque_without_cors
                     Scenario.stylesheet Deployed.RUNTIME_CACHE)
               Sample.two_generations)
     = caches Sample.two_generations
  /\ fetch_outcome (Sample.always Sample.not_found)
       (href (url Sample.cdn_photo)) NoCors = Some Sample.not_found
  /\ (forall name,
        entries name
          (caches (exec (cacheFirstWithLimit (Sample.always Sample.not_found)
                           Sample.cdn_photo "quotesn-runtime-v2-img"
                           IMAGE_CACHE_MAX_ITEMS) Sample.fresh))
        = entries name (caches Sample.fresh)).
Proof.
  assert (Hbad : usable Sample.not_found = false) by reflexivity.
  split; [reflexivity|]. split; [exact Hbad|]. split; [reflexivity|].
  split; [reflexivity|].
  destruct (proj1 (unusable_response_returned_not_stored Deployed.VERSION
                     Sample.offline_page Scenario.opaque_without_cors
                     Scenario.stylesheet Deployed.RUNTIME_CACHE
                     IMAGE_CACHE_MAX_ITEMS Sample.two_generations)
              Sample.not_found eq_refl Hbad)
    as (_ & Hnfb & _ & _ & Hkeep).
  split; [exact Hnfb|]. split; [exact Hkeep|]. split; [reflexivity|].
  exact (proj2 (proj2 (unusable_response_returned_not_stored Deployed.VERSION
                         Sample.offline_page (Sample.always Sample.not_found)
                         Sample.cdn_photo "quotesn-runtime-v2-img"
                         IMAGE_CACHE_MAX_ITEMS Sample.fresh)
                  Sample.not_found eq_refl Hbad)).
Defined.

(* ================================================================== *)
(** ** C2 and C3: what the caller gets *)

(** Three of the four strategies resolve to a Response in every world
    and on every network. *)
Lemma three_strategies_resolve_to_Response
  (VERSION OFFLINE_HTML : string)
  (network : string -> FetchMode -> option Response)
  (request : Request) (cacheName : string) (maxItems : nat) (w : World) :
  resolves_to_Response
    (result (handleHTMLNavigation VERSION OFFLINE_HTML network request) w) = true
  /\ resolves_to_Response
       (result (cacheFirstWithLimit network request cacheName maxItems) w) = true
  /\ resolves_to_Response
       (result (networkFallingBackToCache network request cacheName) w) = true.
Proof.
  split; [|split].
  - destruct (fetch_outcome network (href (url request)) AsRequested)
      as [response|] eqn:Hnet.
    + destruct (navigation_online VERSION OFFLINE_HTML network request response w Hnet)
        as [-> _]. reflexivity.
    + destruct (navigation_offline VERSION OFFLINE_HTML network request w Hnet)
        as [-> _]. reflexivity.
  - destruct (lookup (href (url request)) (entries cacheName (caches w)))
      as [cached|] eqn:Hcached.
    + unfold result.
      now rewrite (cacheFirstWithLimit_hit network request cacheName maxItems
                     cached w Hcached).
    + destruct (cacheFirstWithLimit_miss network request cacheName maxItems w Hcached)
        as [Hres _].
      cbv zeta in Hres. now rewrite Hres.
  - destruct (networkFallingBackToCache_run network request cacheName w) as [Hres _].
    cbv zeta in Hres. now rewrite Hres.
Qed.

(** Stale-while-revalidate resolves to a Response exactly when the
    store has an entry or the network answers. *)
Lemma staleWhileRevalidate_resolves_to_Response
  (network : string -> FetchMode -> option Response)
  (request : Request) (cacheName : string) (w : World) :
  resolves_to_Response (result (staleWhileRevalidate network request cacheName) w)
  = match lookup (href (url request)) (entries cacheName (caches w)),
          fetch_outcome network (href (url request)) AsRequested with
    | None, None => false
    | _, _ => true
    end.
Proof.
  destruct (staleWhileRevalidate_run network request cacheName w) as [Hres _].
  cbv zeta in Hres. rewrite Hres. unfold result, cache_match. cbn [fst].
  destruct (lookup (href (url request)) (entries cacheName (caches w)));
    destruct (fetch_outcome network (href (url request)) AsRequested);
    reflexivity.
Qed.

(** C2, on the code.  A same-origin asset, an empty runtime store, no
    network: stale-while-revalidate resolves to [null], and so not to
    the 504 response written after the promise in its return
    expression. *)
Theorem staleWhileRevalidate_miss_offline_is_null :
  result (staleWhileRevalidate Sample.offline Sample.quotes_json
            Deployed.RUNTIME_CACHE) Sample.fresh
  = Fulfills JNull
  /\ result (staleWhileRevalidate Sample.offline Sample.quotes_json
               Deployed.RUNTIME_CACHE) Sample.fresh
     <> Fulfills (JResponse (new_Response "" [] 504)).
Proof.
  rewrite (staleWhileRevalidate_miss_offline Sample.offline Sample.quotes_json
             Deployed.RUNTIME_CACHE Sample.fresh) by reflexivity.
  split; [reflexivity|discriminate].
Qed.

(** C3, on the code.  The fetch listener intercepts a same-origin GET
    request for an asset and answers it with stale-while-revalidate; on
    an empty store and without network, the promise given to
    [respondWith] is fulfilled with [null], which is not a Response. *)
Theorem same_origin_asset_offline_gets_no_Response :
  fetch_listener Deployed.VERSION Sample.site Sample.quotes_json
  = Some (StaleWhileRevalidate Deployed.RUNTIME_CACHE)
  /\ result (on_fetch Deployed.VERSION Sample.offline_page Sample.site
               Sample.offline Sample.quotes_json) Sample.fresh
     = Some (Fulfills JNull)
  /\ resolves_to_Response (Fulfills JNull) = false.
Proof. repeat split. Qed.

(* ================================================================== *)
(** * Further properties of the worker *)

(** ** What the primitives do to the stores and to the log *)

Lemma entries_update_other (name n : string) (f : Cache -> Cache) (cs : CacheStorage) :
  n <> name -> entries n (update_cache name f cs) = entries n cs.
Proof.
  intros Hne. unfold entries. rewrite lookup_update_cache.
  now destruct (String.eqb_spec n name).
Qed.

(** The entries after [caches.open(n)] and [cache.put] on it. *)
Lemma entries_open_put (n name : string) (request : Request) (response : Response)
      (w : World) :
  entries name (caches (exec (cache_put n request response)
                          (exec (caches_open n) w)))
  = if (name =? n) && put_accepts response
    then (remove (href (url request)) (entries n (caches w))
          ++ [(href (url request), response)])%list
    else entries name (caches w).
Proof.
  destruct (String.eqb_spec name n) as [->|Hne]; cbn [andb].
  - destruct (put_accepts response) eqn:Hput.
    + rewrite entries_cache_put
        by (exact Hput || apply has_cache_caches_open).
      now rewrite entries_caches_open.
    + rewrite exec_cache_put_refused by exact Hput. apply entries_caches_open.
  - rewrite entries_cache_put_other by exact Hne. apply entries_caches_open.
Qed.

Lemma caches_cache_put_accepted (n : string) (request : Request)
      (response : Response) (w : World) :
  put_accepts response = true ->
  caches (exec (cache_put n request response) w)
  = update_cache n
      (fun c => (remove (href (url request)) c
                 ++ [(href (url request), response)])%list) (caches w).
Proof.
  intros Hput. unfold exec. now rewrite cache_put_accepted.
Qed.

Lemma fetch_log_cache_put (n : string) (request : Request) (response : Response)
      (w : World) :
  fetch_log (exec (cache_put n request response) w) = fetch_log w.
Proof.
  unfold exec, cache_put. now destruct (put_accepts response).
Qed.

Lemma fetch_log_caches_open (n : string) (w : World) :
  fetch_log (exec (caches_open n) w) = fetch_log w.
Proof.
  unfold exec, caches_open. cbn [snd]. now destruct (has_cache n (caches w)).
Qed.

Lemma lookup_put (k : string) (r : Response) (c : Cache) :
  lookup k (remove k c ++ [(k, r)]) = Some r.
Proof.
  rewrite lookup_app, (proj2 (lookup_In _ _) (remove_not_In _ _)).
  cbn [lookup]. now rewrite String.eqb_refl.
Qed.

Lemma remove_app {V : Type} (k : string) (l1 l2 : list (string * V)) :
  remove k (l1 ++ l2) = (remove k l1 ++ remove k l2)%list.
Proof. unfold remove. apply filter_app. Qed.

(** When the stores called [name] get an entry for [key] and no other
    store has one, [caches.match] finds that entry. *)
Lemma match_all_update (name key : string) (r : Response) (f : Cache -> Cache)
      (cs : CacheStorage) :
  (forall c, lookup key (f c) = Some r) ->
  has_cache name cs = true ->
  match_all key (remove name cs) = None ->
  match_all key (update_cache name f cs) = Some r.
Proof.
  intros Hf. induction cs as [|[n c] cs IH]; intros Hhas Hnone.
  - discriminate.
  - unfold has_cache in Hhas. cbn [lookup] in Hhas.
    cbn [update_cache map fst snd]. fold (update_cache name f cs).
    unfold remove in Hnone. cbn [filter fst] in Hnone. fold (remove name cs) in Hnone.
    destruct (String.eqb_spec n name) as [->|Hne].
    + cbn [match_all]. now rewrite Hf.
    + cbn [negb match_all] in Hnone. cbn [match_all].
      destruct (lookup key c); [discriminate|].
      apply IH; [exact Hhas|exact Hnone].
Qed.

Lemma match_all_remove_after_open (name key : string) (w : World) :
  match_all key (remove name (caches (exec (caches_open name) w)))
  = match_all key (remove name (caches w)).
Proof.
  unfold exec, caches_open. cbn [snd].
  destruct (has_cache name (caches w)); [reflexivity|].
  unfold with_caches. cbn [caches]. rewrite remove_app.
  unfold remove at 2. cbn [filter fst]. rewrite String.eqb_refl. cbn [negb].
  now rewrite app_nil_r.
Qed.

(** ** Network-first with fallback, in full *)

Section NavigationRuns.

Variable VERSION : string.
Variable OFFLINE_HTML : string.
Variable network : string -> FetchMode -> option Response.

Lemma handleHTMLNavigation_online_world
      (request : Request) (response : Response) (w : World) :
  fetch_outcome network (href (url request)) AsRequested = Some response ->
  exec (handleHTMLNavigation VERSION OFFLINE_HTML network request) w
  = exec (cache_put (RUNTIME_CACHE VERSION) request response)
      (exec (caches_open (RUNTIME_CACHE VERSION))
         (exec (fetch network (href (url request)) AsRequested) w)).
Proof.
  intros Hnet. unfold exec at 1, handleHTMLNavigation.
  rewrite run_bind.
  replace (result (fetch network (href (url request)) AsRequested) w)
    with (Some response) by (symmetry; exact Hnet).
  run. reflexivity.
Qed.

Lemma handleHTMLNavigation_offline_run (request : Request) (w : World) :
  fetch_outcome network (href (url request)) AsRequested = None ->
  handleHTMLNavigation VERSION OFFLINE_HTML network request w
  = (Fulfills
       (JResponse
          (match match_all (href (url request)) (caches w) with
           | Some cached => cached
           | None => new_Response OFFLINE_HTML
                       [("Content-Type", "text/html; charset=utf-8")] 200
           end)),
     exec (fetch network (href (url request)) AsRequested) w).
Proof.
  intros Hnet. unfold handleHTMLNavigation.
  rewrite run_bind.
  replace (result (fetch network (href (url request)) AsRequested) w)
    with (@None Response) by (symmetry; exact Hnet).
  run. prim. cbn [caches].
  now destruct (match_all (href (url request)) (caches w)).
Qed.

End NavigationRuns.

(** X1. Network-first with fallback, network up: the handler resolves
    to the network's response whatever its status, and exactly one fetch
    is logged.  When the cache takes the response (its status is not
    206 and it has no [Vary: *]), it becomes the youngest entry of the
    runtime store under the request's URL, an older entry under that URL
    being dropped; when the cache refuses it, the runtime store keeps
    its entries.  The entries of every other store stay as they were. *)
Theorem navigation_online_stores_youngest
  (VERSION OFFLINE_HTML : string)
  (network : string -> FetchMode -> option Response)
  (request : Request) (response : Response) (w : World)
  (Hnet : fetch_outcome network (href (url request)) AsRequested = Some response) :
  let after := exec (handleHTMLNavigation VERSION OFFLINE_HTML network request) w in
  result (handleHTMLNavigation VERSION OFFLINE_HTML network request) w
  = Fulfills (JResponse response)
  /\ entries (RUNTIME_CACHE VERSION) (caches after)
     = (if put_accepts response
        then (remove (href (url request))
                (entries (RUNTIME_CACHE VERSION) (caches w))
              ++ [(href (url request), response)])%list
        else entries (RUNTIME_CACHE VERSION) (caches w))
  /\ (forall name, name <> RUNTIME_CACHE VERSION ->
        entries name (caches after) = entries name (caches w))
  /\ fetch_log after = (fetch_log w ++ [href (url request)])%list.
Proof.
  cbv zeta.
  rewrite (handleHTMLNavigation_online_world VERSION OFFLINE_HTML network
             request response w Hnet).
  split.
  { now destruct (navigation_online VERSION OFFLINE_HTML network request
                    response w Hnet). }
  split; [|split].
  - rewrite entries_open_put, String.eqb_refl. reflexivity.
  - intros name Hne. rewrite entries_open_put.
    destruct (String.eqb_spec name (RUNTIME_CACHE VERSION)); [contradiction|].
    reflexivity.
  - rewrite fetch_log_cache_put, fetch_log_caches_open. reflexivity.
Qed.

Lemma navigation_online_stores_youngest_witness :
  fetch_outcome (Sample.always Scenario.server_error)
    (href (url Sample.about_page)) AsRequested = Some Scenario.server_error
  /\ entries Deployed.RUNTIME_CACHE
       (caches (exec (handleHTMLNavigation Deployed.VERSION Sample.offline_page
                        (Sample.always Scenario.server_error) Sample.about_page)
                  Scenario.about_cached))
     = [("https://quotesn.com/about/", Scenario.server_error)]
  /\ fetch_outcome (Sample.always Scenario.varying)
       (href (url Sample.about_page)) AsRequested = Some Scenario.varying
  /\ entries Deployed.RUNTIME_CACHE
       (caches (exec (handleHTMLNavigation Deployed.VERSION Sample.offline_page
                        (Sample.always Scenario.varying) Sample.about_page)
                  Scenario.about_cached))
     = [("https://quotesn.com/about/", Scenario.home)].
Proof.
  assert (Hnet : fetch_outcome (Sample.always Scenario.server_error)
                   (href (url Sample.about_page)) AsRequested
                 = Some Scenario.server_error) by reflexivity.
  assert (Hvary : fetch_outcome (Sample.always Scenario.varying)
                    (href (url Sample.about_page)) AsRequested
                  = Some Scenario.varying) by reflexivity.
  split; [exact Hnet|].
  destruct (navigation_online_stores_youngest Deployed.VERSION Sample.offline_page
              (Sample.always Scenario.server_error) Sample.about_page
              Scenario.server_error Scenario.about_cached Hnet)
    as (_ & Hstored & _).
  destruct (navigation_online_stores_youngest Deployed.VERSION Sample.offline_page
              (Sample.always Scenario.varying) Sample.about_page
              Scenario.varying Scenario.about_cached Hvary)
    as (_ & Hrefused & _).
  cbv zeta in Hstored, Hrefused.
  split; [etransitivity; [exact Hstored|reflexivity]|].
  split; [exact Hvary|].
  etransitivity; [exact Hrefused|reflexivity].
Defined.

(** X2. Network-first with fallback, network down: the handler
    resolves to the first entry for the request's URL found in any
    store, in the order the stores were created; it writes to no store
    and logs its one fetch. *)
Theorem navigation_offline_serves_any_store
  (VERSION OFFLINE_HTML : string)
  (network : string -> FetchMode -> option Response)
  (request : Request) (cached : Response) (w : World)
  (Hfail : fetch_outcome network (href (url request)) AsRequested = None)
  (Hhit : match_all (href (url request)) (caches w) = Some cached) :
  let after := exec (handleHTMLNavigation VERSION OFFLINE_HTML network request) w in
  result (handleHTMLNavigation VERSION OFFLINE_HTML network request) w
  = Fulfills (JResponse cached)
  /\ caches after = caches w
  /\ fetch_log after = (fetch_log w ++ [href (url request)])%list.
Proof.
  cbv zeta. unfold result, exec.
  rewrite (handleHTMLNavigation_offline_run VERSION OFFLINE_HTML network
             request w Hfail), Hhit.
  repeat split.
Qed.

Lemma navigation_offline_serves_any_store_witness :
  fetch_outcome Sample.offline (href (url Sample.about_page)) AsRequested = None
  /\ match_all (href (url Sample.about_page)) (caches Scenario.about_cached)
     = Some Scenario.home
  /\ result (handleHTMLNavigation Deployed.VERSION Sample.offline_page
               Sample.offline Sample.about_page) Scenario.about_cached
     = Fulfills (JResponse Scenario.home).
Proof.
  split; [reflexivity|]. split; [reflexivity|].
  apply (navigation_offline_serves_any_store Deployed.VERSION Sample.offline_page
           Sample.offline Sample.about_page Scenario.home Scenario.about_cached);
    reflexivity.
Defined.

(** X3. Network-first with fallback, round trip: a page fetched while
    the network is up, and taken by the cache (status not 206, no
    [Vary: *]), is the page served when the network is down afterwards,
    provided no store other than the runtime store holds an entry for
    its URL. *)
Theorem navigation_round_trip
  (VERSION OFFLINE_HTML : string)
  (online offline : string -> FetchMode -> option Response)
  (request : Request) (response : Response) (w : World)
  (Hup : fetch_outcome online (href (url request)) AsRequested = Some response)
  (Hput : put_accepts response = true)
  (Hdown : fetch_outcome offline (href (url request)) AsRequested = None)
  (Hother : match_all (href (url request))
              (remove (RUNTIME_CACHE VERSION) (caches w)) = None) :
  result (handleHTMLNavigation VERSION OFFLINE_HTML offline request)
    (exec (handleHTMLNavigation VERSION OFFLINE_HTML online request) w)
  = Fulfills (JResponse response).
Proof.
  unfold result at 1.
  rewrite (handleHTMLNavigation_offline_run VERSION OFFLINE_HTML offline
             request _ Hdown). cbn [fst].
  rewrite (handleHTMLNavigation_online_world VERSION OFFLINE_HTML online
             request response w Hup).
  rewrite caches_cache_put_accepted by exact Hput.
  rewrite (match_all_update (RUNTIME_CACHE VERSION) (href (url request)) response).
  - reflexivity.
  - intros c. apply lookup_put.
  - apply has_cache_caches_open.
  - rewrite match_all_remove_after_open. exact Hother.
Qed.

Lemma navigation_round_trip_witness :
  fetch_outcome (Sample.always Scenario.home)
    (href (url Sample.about_page)) AsRequested = Some Scenario.home
  /\ put_accepts Scenario.home = true
  /\ fetch_outcome Sample.offline (href (url Sample.about_page)) AsRequested = None
  /\ match_all (href (url Sample.about_page))
       (remove Deployed.RUNTIME_CACHE (caches Sample.fresh)) = None
  /\ result (handleHTMLNavigation Deployed.VERSION Sample.offline_page
               Sample.offline Sample.about_page)
       (exec (handleHTMLNavigation Deployed.VERSION Sample.offline_page
                (Sample.always Scenario.home) Sample.about_page) Sample.fresh)
     = Fulfills (JResponse Scenario.home).
Proof.
  split; [reflexivity|]. split; [reflexivity|]. split; [reflexivity|].
  split; [reflexivity|].
  apply (navigation_round_trip Deployed.VERSION Sample.offline_page
           (Sample.always Scenario.home) Sample.offline Sample.about_page
           Scenario.home Sample.fresh); reflexivity.
Defined.

(** ** The worlds the other strategies leave *)

Section StrategyWorlds.

Variable network : string -> FetchMode -> option Response.

Lemma result_fetch (u : string) (m : FetchMode) (w : World) :
  result (fetch network u m) w = fetch_outcome network u m.
Proof. reflexivity. Qed.

Lemma caches_fetch (u : string) (m : FetchMode) (w : World) :
  caches (exec (fetch network u m) w) = caches w.
Proof. reflexivity. Qed.

Lemma fetch_log_fetch (u : string) (m : FetchMode) (w : World) :
  fetch_log (exec (fetch network u m) w) = (fetch_log w ++ [u])%list.
Proof. reflexivity. Qed.

Lemma staleWhileRevalidate_world (request : Request) (cacheName : string) (w : World) :
  let fetched := exec (fetch network (href (url request)) AsRequested)
                   (exec (caches_open cacheName) w) in
  exec (staleWhileRevalidate network request cacheName) w
  = match fetch_outcome network (href (url request)) AsRequested with
    | Some response =>
        if usable response
        then exec (cache_put cacheName request response) fetched
        else fetched
    | None => fetched
    end.
Proof.
  cbv zeta. unfold exec at 1, staleWhileRevalidate. run. rewrite result_fetch.
  destruct (fetch_outcome network (href (url request)) AsRequested) as [response|].
  - run. cbn [truthy andb]. destruct (usable response); [|reflexivity].
    rewrite !exec_bind. reflexivity.
  - reflexivity.
Qed.

Lemma networkFallingBackToCache_world
      (request : Request) (cacheName : string) (w : World) :
  let fetched := exec (fetch network (href (url request)) AsRequested) w in
  exec (networkFallingBackToCache network request cacheName) w
  = match fetch_outcome network (href (url request)) AsRequested with
    | Some response =>
        if usable response
        then exec (cache_put cacheName request response)
               (exec (caches_open cacheName) fetched)
        else fetched
    | None => fetched
    end.
Proof.
  cbv zeta. unfold exec at 1, networkFallingBackToCache. run. rewrite result_fetch.
  destruct (fetch_outcome network (href (url request)) AsRequested) as [response|].
  - run. cbn [truthy andb]. destruct (usable response); [|reflexivity].
    rewrite !exec_bind. reflexivity.
  - run. reflexivity.
Qed.

Lemma cacheFirstWithLimit_miss_world
      (request : Request) (cacheName : string) (maxItems : nat) (w : World) :
  lookup (href (url request)) (entries cacheName (caches w)) = None ->
  let fetched := exec (fetch network (href (url request)) NoCors)
                   (exec (caches_open cacheName) w) in
  exec (cacheFirstWithLimit network request cacheName maxItems) w
  = match fetch_outcome network (href (url request)) NoCors with
    | Some response =>
        if usable response
        then
          if put_accepts response
          then exec (trimCache cacheName maxItems)
                 (exec (cache_put cacheName request response) fetched)
          else exec (fetch network fallbackImg AsRequested) fetched
        else fetched
    | None => exec (fetch network fallbackImg AsRequested) fetched
    end.
Proof.
  intros Hmiss. cbv zeta. unfold exec at 1.
  rewrite (cacheFirstWithLimit_miss_run network request cacheName maxItems w Hmiss).
  destruct (fetch_outcome network (href (url request)) NoCors) as [response|];
    [destruct (usable response); [destruct (put_accepts response)|]|];
    reflexivity.
Qed.

End StrategyWorlds.



(** With distinct keys, trimming keeps the most recent entries. *)
Lemma trimCache_most_recent (cacheName : string) (maxItems : nat) (w : World) :
  NoDup (map fst (entries cacheName (caches w))) ->
  entries cacheName (caches (exec (trimCache cacheName maxItems) w))
  = most_recent maxItems (entries cacheName (caches w)).
Proof.
  intros Hkeys.
  destruct (trimCache_entries cacheName maxItems w) as [Hc _].
  cbv zeta in Hc. rewrite Hc. unfold most_recent.
  rewrite firstn_rev, rev_involutive.
  set (c := entries cacheName (caches w)) in *.
  destruct (Nat.leb_spec (List.length c) maxItems) as [Hle|Hgt].
  - replace (List.length c - maxItems) with 0 by lia. reflexivity.
  - assert (Hle : 0 + (List.length c - maxItems) <= List.length c) by lia.
    exact (delete_from_skipn c Hkeys (List.length c - maxItems) 0 Hle).
Qed.

Lemma most_recent_length (n : nat) (c : Cache) :
  List.length (most_recent n c) <= n.
Proof.
  unfold most_recent. rewrite length_rev, length_firstn. lia.
Qed.

Lemma NoDup_skipn {A : Type} (n : nat) (l : list A) :
  NoDup l -> NoDup (skipn n l).
Proof.
  intros H. rewrite <- (firstn_skipn n l) in H.
  now apply NoDup_app_remove_l in H.
Qed.

Lemma most_recent_NoDup (n : nat) (c : Cache) :
  NoDup (map fst c) -> NoDup (map fst (most_recent n c)).
Proof.
  intros H. unfold most_recent. rewrite firstn_rev, rev_involutive.
  rewrite <- skipn_map. now apply NoDup_skipn.
Qed.

Lemma put_NoDup (k : string) (r : Response) (c : Cache) :
  NoDup (map fst c) -> NoDup (map fst (remove k c ++ [(k, r)])).
Proof.
  intros H. rewrite map_app. cbn [map fst]. apply NoDup_app.
  - unfold remove. clear r. induction c as [|[k' v] c IH]; cbn [filter fst map].
    + constructor.
    + cbn [map fst] in H. inversion H as [|x l Hx Hc]; subst.
      destruct (k' =? k); cbn [negb map fst]; [now apply IH|].
      constructor; [|now apply IH].
      intros Hin. apply Hx. apply in_map_iff in Hin as [e [He Hin]].
      apply filter_In in Hin as [Hin _]. apply in_map_iff. now exists e.
  - repeat constructor. intros [].
  - intros a Ha [E|[]]. subst a. now apply (remove_not_In k c).
Qed.


(** ** Stale-while-revalidate *)

Lemma staleWhileRevalidate_hit_result
      (network : string -> FetchMode -> option Response)
      (request : Request) (cacheName : string) (cached : Response) (w : World) :
  lookup (href (url request)) (entries cacheName (caches w)) = Some cached ->
  result (staleWhileRevalidate network request cacheName) w
  = Fulfills (JResponse cached).
Proof.
  intros Hhit.
  destruct (staleWhileRevalidate_run network request cacheName w) as [Hres _].
  cbv zeta in Hres. rewrite Hres. unfold result, cache_match. cbn [fst].
  rewrite Hhit. reflexivity.
Qed.

(** X4. Stale-while-revalidate with a cached entry: the handler
    resolves to the cached entry on every network, a failing one
    included, and the revalidating fetch is issued all the same. *)
Theorem staleWhileRevalidate_hit_returns_cached
  (network : string -> FetchMode -> option Response)
  (request : Request) (cacheName : string) (cached : Response) (w : World)
  (Hhit : lookup (href (url request)) (entries cacheName (caches w)) = Some cached) :
  result (staleWhileRevalidate network request cacheName) w
  = Fulfills (JResponse cached)
  /\ fetch_log (exec (staleWhileRevalidate network request cacheName) w)
     = (fetch_log w ++ [href (url request)])%list.
Proof.
  split.
  - now apply staleWhileRevalidate_hit_result.
  - rewrite staleWhileRevalidate_world.
    assert (Hlog : fetch_log (exec (fetch network (href (url request)) AsRequested)
                                (exec (caches_open cacheName) w))
                   = (fetch_log w ++ [href (url request)])%list).
    { rewrite fetch_log_fetch, fetch_log_caches_open. reflexivity. }
    destruct (fetch_outcome network (href (url request)) AsRequested) as [response|];
      [destruct (usable response)|]; try rewrite fetch_log_cache_put; exact Hlog.
Qed.

Lemma staleWhileRevalidate_hit_returns_cached_witness :
  lookup (href (url Sample.about_page))
    (entries Deployed.RUNTIME_CACHE (caches Scenario.about_cached))
  = Some Scenario.home
  /\ result (staleWhileRevalidate Sample.offline Sample.about_page
               Deployed.RUNTIME_CACHE) Scenario.about_cached
     = Fulfills (JResponse Scenario.home).
Proof.
  assert (Hhit : lookup (href (url Sample.about_page))
                   (entries Deployed.RUNTIME_CACHE (caches Scenario.about_cached))
                 = Some Scenario.home) by reflexivity.
  split; [exact Hhit|].
  exact (proj1 (staleWhileRevalidate_hit_returns_cached Sample.offline
                  Sample.about_page Deployed.RUNTIME_CACHE Scenario.home
                  Scenario.about_cached Hhit)).
Defined.

(** X5. Stale-while-revalidate refreshes its store: when the network
    answers with an ok or opaque response that the cache takes (status
    not 206, no [Vary: *]), that response becomes the youngest entry of
    the store under the request's URL, no other store changes, and the
    next call for the request resolves to it, whatever the network does
    then. *)
Theorem staleWhileRevalidate_refreshes_store
  (network later : string -> FetchMode -> option Response)
  (request : Request) (cacheName : string) (response : Response) (w : World)
  (Hnet : fetch_outcome network (href (url request)) AsRequested = Some response)
  (Huse : usable response = true)
  (Hput : put_accepts response = true) :
  let after := exec (staleWhileRevalidate network request cacheName) w in
  entries cacheName (caches after)
  = (remove (href (url request)) (entries cacheName (caches w))
     ++ [(href (url request), response)])%list
  /\ (forall name, name <> cacheName ->
        entries name (caches after) = entries name (caches w))
  /\ result (staleWhileRevalidate later request cacheName) after
     = Fulfills (JResponse response).
Proof.
  cbv zeta.
  destruct (staleWhileRevalidate_run network request cacheName w) as [_ Hent].
  cbv zeta in Hent. rewrite Hnet, Huse in Hent.
  assert (Hstore : entries cacheName
                     (caches (exec (staleWhileRevalidate network request cacheName) w))
                   = (remove (href (url request)) (entries cacheName (caches w))
                      ++ [(href (url request), response)])%list).
  { rewrite Hent, entries_open_put, String.eqb_refl, Hput. reflexivity. }
  split; [exact Hstore|]. split.
  - intros name Hne. rewrite Hent, entries_open_put.
    now destruct (String.eqb_spec name cacheName).
  - apply staleWhileRevalidate_hit_result.
    rewrite Hstore. apply lookup_put.
Qed.

Lemma staleWhileRevalidate_refreshes_store_witness :
  fetch_outcome (Sample.always Scenario.lost)
    (href (url Sample.about_page)) AsRequested = Some Scenario.lost
  /\ usable Scenario.lost = true
  /\ put_accepts Scenario.lost = true
  /\ result (staleWhileRevalidate Sample.offline Sample.about_page
               Deployed.RUNTIME_CACHE)
       (exec (staleWhileRevalidate (Sample.always Scenario.lost) Sample.about_page
                Deployed.RUNTIME_CACHE) Scenario.about_cached)
     = Fulfills (JResponse Scenario.lost).
Proof.
  assert (Hnet : fetch_outcome (Sample.always Scenario.lost)
                   (href (url Sample.about_page)) AsRequested
                 = Some Scenario.lost) by reflexivity.
  assert (Huse : usable Scenario.lost = true) by reflexivity.
  assert (Hput : put_accepts Scenario.lost = true) by reflexivity.
  split; [exact Hnet|]. split; [exact Huse|]. split; [exact Hput|].
  destruct (staleWhileRevalidate_refreshes_store (Sample.always Scenario.lost)
              Sample.offline Sample.about_page Deployed.RUNTIME_CACHE
              Scenario.lost Scenario.about_cached Hnet Huse Hput)
    as (_ & _ & Hnext).
  exact Hnext.
Defined.

(** ** Cache-first with a cap *)

Lemma entries_put_fetched
      (network : string -> FetchMode -> option Response)
      (u : string) (m : FetchMode) (n name : string)
      (request : Request) (response : Response) (w : World) :
  entries name
    (caches (exec (cache_put n request response)
               (exec (fetch network u m) (exec (caches_open n) w))))
  = if (name =? n) && put_accepts response
    then (remove (href (url request)) (entries n (caches w))
          ++ [(href (url request), response)])%list
    else entries name (caches w).
Proof.
  rewrite <- (entries_open_put n name request response w).
  unfold exec at 1 4, cache_put. now destruct (put_accepts response).
Qed.

(** What a miss answered with a usable response that the cache takes
    leaves in the store. *)
Lemma cacheFirstWithLimit_miss_stored
      (network : string -> FetchMode -> option Response)
      (request : Request) (cacheName : string) (maxItems : nat)
      (response : Response) (w : World) :
  NoDup (map fst (entries cacheName (caches w))) ->
  lookup (href (url request)) (entries cacheName (caches w)) = None ->
  fetch_outcome network (href (url request)) NoCors = Some response ->
  usable response = true ->
  put_accepts response = true ->
  entries cacheName
    (caches (exec (cacheFirstWithLimit network request cacheName maxItems) w))
  = most_recent maxItems
      (entries cacheName (caches w) ++ [(href (url request), response)])%list.
Proof.
  intros Hkeys Hmiss Hnet Huse Hput.
  rewrite (cacheFirstWithLimit_miss_world network request cacheName maxItems w Hmiss).
  cbv zeta. rewrite Hnet, Huse, Hput.
  assert (Hstored : entries cacheName
                      (caches (exec (cache_put cacheName request response)
                                 (exec (fetch network (href (url request)) NoCors)
                                    (exec (caches_open cacheName) w))))
                    = (entries cacheName (caches w)
                       ++ [(href (url request), response)])%list).
  { rewrite entries_put_fetched, String.eqb_refl, Hput. cbn [andb].
    rewrite (remove_absent _ _ (proj1 (lookup_In _ _) Hmiss)). reflexivity. }
  rewrite trimCache_most_recent; rewrite Hstored; [reflexivity|].
  rewrite <- (remove_absent _ _ (proj1 (lookup_In _ _) Hmiss)).
  now apply put_NoDup.
Qed.

(** A miss answered with a usable response that the cache refuses
    leaves every store as it was. *)
Lemma cacheFirstWithLimit_miss_refused
      (network : string -> FetchMode -> option Response)
      (request : Request) (cacheName : string) (maxItems : nat)
      (response : Response) (w : World) :
  lookup (href (url request)) (entries cacheName (caches w)) = None ->
  fetch_outcome network (href (url request)) NoCors = Some response ->
  usable response = true ->
  put_accepts response = false ->
  forall name,
    entries name
      (caches (exec (cacheFirstWithLimit network request cacheName maxItems) w))
    = entries name (caches w).
Proof.
  intros Hmiss Hnet Huse Hput name.
  rewrite (cacheFirstWithLimit_miss_world network request cacheName maxItems w Hmiss).
  cbv zeta. rewrite Hnet, Huse, Hput.
  apply (entries_caches_open cacheName name w).
Qed.



(** One call keeps the keys of the store distinct, and its count within
    the cap when it was. *)
Lemma cacheFirstWithLimit_step
      (network : string -> FetchMode -> option Response)
      (request : Request) (cacheName : string) (maxItems : nat) (w : World) :
  NoDup (map fst (entries cacheName (caches w))) ->
  let after := exec (cacheFirstWithLimit network request cacheName maxItems) w in
  NoDup (map fst (entries cacheName (caches after)))
  /\ (List.length (entries cacheName (caches w)) <= maxItems ->
      List.length (entries cacheName (caches after)) <= maxItems).
Proof.
  intros Hkeys. cbv zeta.
  destruct (lookup (href (url request)) (entries cacheName (caches w)))
    as [cached|] eqn:Hcached.
  - unfold exec.
    rewrite (cacheFirstWithLimit_hit network request cacheName maxItems
               cached w Hcached). cbn [snd]. now split.
  - destruct (fetch_outcome network (href (url request)) NoCors)
      as [response|] eqn:Hnet;
      [destruct (usable response) eqn:Huse;
       [destruct (put_accepts response) eqn:Hput|]|].
    + rewrite (cacheFirstWithLimit_miss_stored network request cacheName maxItems
                 response w Hkeys Hcached Hnet Huse Hput).
      split; [|intros _; apply most_recent_length].
      apply most_recent_NoDup.
      rewrite <- (remove_absent _ _ (proj1 (lookup_In _ _) Hcached)).
      now apply put_NoDup.
    + rewrite (cacheFirstWithLimit_miss_refused network request cacheName maxItems
                 response w Hcached Hnet Huse Hput cacheName).
      now split.
    + destruct (cacheFirstWithLimit_miss network request cacheName maxItems w Hcached)
        as [_ Hkeep].
      cbv zeta in Hkeep. rewrite Hnet in Hkeep. rewrite (Hkeep cacheName Huse).
      now split.
    + destruct (cacheFirstWithLimit_miss network request cacheName maxItems w Hcached)
        as [_ Hkeep].
      cbv zeta in Hkeep. rewrite Hnet in Hkeep. rewrite (Hkeep cacheName eq_refl).
      now split.
Qed.

(** X7. The cap is an invariant of cache-first with a cap: a store with
    distinct keys and at most [maxItems] entries still has distinct keys
    and at most [maxItems] entries after any sequence of calls, for any
    requests and on any network. *)
Theorem cacheFirstWithLimit_keeps_cap
  (network : string -> FetchMode -> option Response)
  (requests : list Request) (cacheName : string) (maxItems : nat) (w : World)
  (Hkeys : NoDup (map fst (entries cacheName (caches w))))
  (Hcap : List.length (entries cacheName (caches w)) <= maxItems) :
  let after := exec (cacheFirstWithLimit_each network requests cacheName maxItems) w in
  NoDup (map fst (entries cacheName (caches after)))
  /\ List.length (entries cacheName (caches after)) <= maxItems.
Proof.
  cbv zeta. revert w Hkeys Hcap.
  induction requests as [|request requests IH]; intros w Hkeys Hcap;
    cbn [cacheFirstWithLimit_each].
  - now split.
  - rewrite exec_bind.
    destruct (cacheFirstWithLimit_step network request cacheName maxItems w Hkeys)
      as [Hkeys' Hcap'].
    apply IH; [exact Hkeys'|exact (Hcap' Hcap)].
Qed.

Lemma cacheFirstWithLimit_keeps_cap_witness :
  NoDup (map fst (entries "img" (caches Sample.fresh)))
  /\ List.length (entries "img" (caches Sample.fresh)) <= 2
  /\ map fst
       (entries "img"
          (caches (exec (cacheFirstWithLimit_each (Sample.always Sample.photo)
                           [request_of_path "https://cdn.example" "/1.png";
                            request_of_path "https://cdn.example" "/2.png";
                            request_of_path "https://cdn.example" "/1.png";
                            request_of_path "https://cdn.example" "/3.png"]
                           "img" 2) Sample.fresh)))
     = ["https://cdn.example/2.png"; "https://cdn.example/3.png"]
  /\ List.length
       (entries "img"
          (caches (exec (cacheFirstWithLimit_each (Sample.always Sample.photo)
                           [request_of_path "https://cdn.example" "/1.png";
                            request_of_path "https://cdn.example" "/2.png";
                            request_of_path "https://cdn.example" "/1.png";
                            request_of_path "https://cdn.example" "/3.png"]
                           "img" 2) Sample.fresh))) <= 2.
Proof.
  assert (Hkeys : NoDup (map fst (entries "img" (caches Sample.fresh))))
    by constructor.
  assert (Hcap : List.length (entries "img" (caches Sample.fresh)) <= 2)
    by (cbn; lia).
  split; [exact Hkeys|]. split; [exact Hcap|]. split; [reflexivity|].
  exact (proj2 (cacheFirstWithLimit_keeps_cap (Sample.always Sample.photo)
                  [request_of_path "https://cdn.example" "/1.png";
                   request_of_path "https://cdn.example" "/2.png";
                   request_of_path "https://cdn.example" "/1.png";
                   request_of_path "https://cdn.example" "/3.png"]
                  "img" 2 Sample.fresh Hkeys Hcap)).
Defined.

(** ** Network falling back to cache *)



(** X9. Network falling back to cache, network down: the handler
    resolves to the first entry for the URL found in any store, and
    without one to a response of status 504 with an empty body; it
    writes to no store. *)
Theorem networkFallingBackToCache_offline
  (network : string -> FetchMode -> option Response)
  (request : Request) (cacheName : string) (w : World)
  (Hfail : fetch_outcome network (href (url request)) AsRequested = None) :
  let run := networkFallingBackToCache network request cacheName in
  (forall cached,
      match_all (href (url request)) (caches w) = Some cached ->
      result run w = Fulfills (JResponse cached))
  /\ (match_all (href (url request)) (caches w) = None ->
      exists r, result run w = Fulfills (JResponse r)
                /\ status r = 504 /\ body r = BodyText "")
  /\ caches (exec run w) = caches w
  /\ fetch_log (exec run w) = (fetch_log w ++ [href (url request)])%list.
Proof.
  cbv zeta.
  destruct (networkFallingBackToCache_run network request cacheName w)
    as [Hres Hkeep].
  cbv zeta in Hres, Hkeep. rewrite Hfail in Hres, Hkeep.
  split; [|split; [|split]].
  - intros cached Hhit. now rewrite Hres, Hhit.
  - intros Hmiss. rewrite Hres, Hmiss. eexists. repeat split.
  - now apply Hkeep.
  - rewrite networkFallingBackToCache_world. cbv zeta. rewrite Hfail.
    reflexivity.
Qed.

Lemma networkFallingBackToCache_offline_witness :
  fetch_outcome Sample.offline (href (url Sample.cdn_photo)) AsRequested = None
  /\ match_all (href (url Sample.cdn_photo)) (caches Sample.fresh) = None
  /\ exists r,
       result (networkFallingBackToCache Sample.offline Sample.cdn_photo
                 Deployed.RUNTIME_CACHE) Sample.fresh
       = Fulfills (JResponse r)
       /\ status r = 504 /\ body r = BodyText "".
Proof.
  split; [reflexivity|]. split; [reflexivity|].
  destruct (networkFallingBackToCache_offline Sample.offline Sample.cdn_photo
              Deployed.RUNTIME_CACHE Sample.fresh eq_refl) as (_ & Hmiss & _).
  exact (Hmiss eq_refl).
Defined.

(** ** The fetch listener and its handlers together *)

(** X10. The fetch listener leaves a request that is not a GET to the
    browser and does nothing at all for it: no store is opened, read or
    written and nothing is fetched.  Every GET request is answered. *)
Theorem on_fetch_handles_exactly_GET
  (VERSION OFFLINE_HTML location_origin : string)
  (network : string -> FetchMode -> option Response)
  (req : Request) (w : World) :
  (method req <> "GET" ->
   on_fetch VERSION OFFLINE_HTML location_origin network req w = (None, w))
  /\ (method req = "GET" ->
      exists p, result (on_fetch VERSION OFFLINE_HTML location_origin network req) w
                = Some p).
Proof.
  unfold on_fetch, fetch_listener. split; intros Hm.
  - apply String.eqb_neq in Hm. rewrite Hm. reflexivity.
  - replace (method req =? "GET") with true
      by (symmetry; now apply String.eqb_eq).
    cbn [negb].
    repeat match goal with
           | |- context [if ?b then _ else _] => destruct b
           end;
      unfold result; rewrite run_bind; eexists; reflexivity.
Qed.


Lemma on_fetch_handles_exactly_GET_witness :
  "POST" <> "GET"
  /\ on_fetch Deployed.VERSION Sample.offline_page Sample.site
       (Sample.always Scenario.home)
       {| method := "POST"; url := url Sample.about_page; mode := "navigate";
          destination := "document"; accept := Some "text/html" |}
       Scenario.about_cached
     = (None, Scenario.about_cached)
  /\ exists p,
       result (on_fetch Deployed.VERSION Sample.offline_page Sample.site
                 (Sample.always Scenario.home) Sample.cdn_photo)
         Scenario.about_cached
       = Some p.
Proof.
  assert (Hpost : "POST" <> "GET") by discriminate.
  split; [exact Hpost|]. split.
  - exact (proj1 (on_fetch_handles_exactly_GET Deployed.VERSION
                    Sample.offline_page Sample.site (Sample.always Scenario.home)
                    {| method := "POST"; url := url Sample.about_page;
                       mode := "navigate"; destination := "document";
                       accept := Some "text/html" |}
                    Scenario.about_cached) Hpost).
  - exact (proj2 (on_fetch_handles_exactly_GET Deployed.VERSION
                    Sample.offline_page Sample.site (Sample.always Scenario.home)
                    Sample.cdn_photo Scenario.about_cached) eq_refl).
Defined.

(** ** Distinct keys *)

Lemma keys_distinct_same_entries (w w' : World) :
  (forall name, entries name (caches w') = entries name (caches w)) ->
  keys_distinct w -> keys_distinct w'.
Proof.
  intros Hsame H name. rewrite Hsame. apply H.
Qed.

Lemma keys_distinct_caches_open (n : string) (w : World) :
  keys_distinct w -> keys_distinct (exec (caches_open n) w).
Proof.
  apply keys_distinct_same_entries. intros name. apply entries_caches_open.
Qed.

Lemma keys_distinct_cache_put (n : string) (request : Request) (response : Response)
      (w : World) :
  keys_distinct w -> keys_distinct (exec (cache_put n request response) w).
Proof.
  intros H name. unfold exec, cache_put.
  destruct (put_accepts response); cbn [snd]; [|apply H].
  unfold with_caches. cbn [caches]. unfold entries. rewrite lookup_update_cache.
  specialize (H name). unfold entries in H.
  destruct (name =? n); [|exact H].
  destruct (lookup name (caches w)) as [c|]; cbn [option_map].
  - now apply put_NoDup.
  - constructor.
Qed.

Lemma keys_distinct_trimCache (cacheName : string) (maxItems : nat) (w : World) :
  keys_distinct w -> keys_distinct (exec (trimCache cacheName maxItems) w).
Proof.
  intros H name. destruct (String.eqb_spec name cacheName) as [->|Hne].
  - rewrite trimCache_most_recent by apply H.
    apply most_recent_NoDup, H.
  - destruct (trimCache_entries cacheName maxItems w) as [_ Hframe].
    cbv zeta in Hframe. rewrite (Hframe name Hne). apply H.
Qed.

Lemma keys_distinct_fetch
      (network : string -> FetchMode -> option Response)
      (u : string) (m : FetchMode) (w : World) :
  keys_distinct w -> keys_distinct (exec (fetch network u m) w).
Proof. intros H. exact H. Qed.

(** X12. Every handler keeps the keys of every store pairwise
    different: the precondition of the trimmer is an invariant of the
    worker. *)
Theorem respondWith_keeps_keys_distinct
  (VERSION OFFLINE_HTML : string)
  (network : string -> FetchMode -> option Response)
  (h : Handler) (req : Request) (w : World)
  (Hkeys : keys_distinct w) :
  keys_distinct (exec (respondWith VERSION OFFLINE_HTML network h req) w).
Proof.
  destruct h as [|cacheName|cacheName maxItems|cacheName]; cbn [respondWith].
  - destruct (fetch_outcome network (href (url req)) AsRequested)
      as [response|] eqn:Hnet.
    + rewrite (handleHTMLNavigation_online_world VERSION OFFLINE_HTML network
                 req response w Hnet).
      now apply keys_distinct_cache_put, keys_distinct_caches_open,
        keys_distinct_fetch.
    + unfold exec.
      rewrite (handleHTMLNavigation_offline_run VERSION OFFLINE_HTML network
                 req w Hnet). cbn [snd]. now apply keys_distinct_fetch.
  - rewrite staleWhileRevalidate_world. cbv zeta.
    assert (H1 : keys_distinct
                   (exec (fetch network (href (url req)) AsRequested)
                      (exec (caches_open cacheName) w)))
      by now apply keys_distinct_fetch, keys_distinct_caches_open.
    destruct (fetch_outcome network (href (url req)) AsRequested) as [response|];
      [destruct (usable response)|]; try exact H1.
    now apply keys_distinct_cache_put.
  - destruct (lookup (href (url req)) (entries cacheName (caches w)))
      as [cached|] eqn:Hcached.
    + unfold exec.
      now rewrite (cacheFirstWithLimit_hit network req cacheName maxItems
                     cached w Hcached).
    + rewrite (cacheFirstWithLimit_miss_world network req cacheName maxItems
                 w Hcached). cbv zeta.
      assert (H1 : keys_distinct
                     (exec (fetch network (href (url req)) NoCors)
                        (exec (caches_open cacheName) w)))
        by now apply keys_distinct_fetch, keys_distinct_caches_open.
      destruct (fetch_outcome network (href (url req)) NoCors) as [response|];
        [destruct (usable response); [destruct (put_accepts response)|]|].
      * now apply keys_distinct_trimCache, keys_distinct_cache_put.
      * now apply keys_distinct_fetch.
      * exact H1.
      * now apply keys_distinct_fetch.
  - rewrite networkFallingBackToCache_world. cbv zeta.
    assert (H1 : keys_distinct (exec (fetch network (href (url req)) AsRequested) w))
      by now apply keys_distinct_fetch.
    destruct (fetch_outcome network (href (url req)) AsRequested) as [response|];
      [destruct (usable response)|]; try exact H1.
    now apply keys_distinct_cache_put, keys_distinct_caches_open.
Qed.

Lemma keys_distinct_two_generations : keys_distinct Sample.two_generations.
Proof.
  intros name. unfold entries. cbn [caches Sample.two_generations lookup].
  repeat match goal with
         | |- context [if ?b then _ else _] => destruct b
         end;
    repeat (constructor; [cbn; intuition discriminate|]); constructor.
Qed.

Lemma respondWith_keeps_keys_distinct_witness :
  keys_distinct Sample.two_generations
  /\ keys_distinct
       (exec (respondWith "v2" Sample.offline_page (Sample.always Sample.photo)
                (CacheFirstWithLimit "quotesn-runtime-v2-img" 3)
                (request_of_path "https://cdn.example" "/new.gif"))
          Sample.two_generations).
Proof.
  split; [exact keys_distinct_two_generations|].
  apply (respondWith_keeps_keys_distinct "v2" Sample.offline_page
           (Sample.always Sample.photo)
           (CacheFirstWithLimit "quotesn-runtime-v2-img" 3)
           (request_of_path "https://cdn.example" "/new.gif")
           Sample.two_generations).
  exact keys_distinct_two_generations.
Defined.

(** ** The trimmer, composed *)

Lemma most_recent_skipn (n : nat) (c : Cache) :
  most_recent n c = skipn (List.length c - n) c.
Proof.
  unfold most_recent. now rewrite firstn_rev, rev_involutive.
Qed.

(** X13. Trimming twice is trimming once to the smaller cap: on a store
    with distinct keys, [trimCache] to [m1] and then to [m2] keeps the
    [min m1 m2] most recent entries; in particular trimming again to
    the same cap changes nothing. *)
Theorem trimCache_twice
  (cacheName : string) (m1 m2 : nat) (w : World)
  (Hkeys : NoDup (map fst (entries cacheName (caches w)))) :
  entries cacheName
    (caches (exec (trimCache cacheName m2) (exec (trimCache cacheName m1) w)))
  = most_recent (Nat.min m1 m2) (entries cacheName (caches w))
  /\ entries cacheName
       (caches (exec (trimCache cacheName m1) (exec (trimCache cacheName m1) w)))
     = entries cacheName (caches (exec (trimCache cacheName m1) w)).
Proof.
  assert (Hgen : forall m,
             entries cacheName
               (caches (exec (trimCache cacheName m)
                          (exec (trimCache cacheName m1) w)))
             = most_recent (Nat.min m1 m) (entries cacheName (caches w))).
  { intros m. rewrite trimCache_most_recent.
    - rewrite (trimCache_most_recent cacheName m1 w Hkeys).
      rewrite !most_recent_skipn, skipn_skipn, length_skipn.
      f_equal. lia.
    - rewrite (trimCache_most_recent cacheName m1 w Hkeys).
      now apply most_recent_NoDup. }
  split; [apply Hgen|].
  rewrite Hgen, Nat.min_id.
  now rewrite (trimCache_most_recent cacheName m1 w Hkeys).
Qed.

Lemma trimCache_twice_witness :
  NoDup (map fst (entries "quotesn-runtime-v2-img" (caches Sample.two_generations)))
  /\ map fst
       (entries "quotesn-runtime-v2-img"
          (caches (exec (trimCache "quotesn-runtime-v2-img" 3)
                     (exec (trimCache "quotesn-runtime-v2-img" 1)
                        Sample.two_generations))))
     = ["https://cdn.example/d.png"].
Proof.
  assert (Hkeys : NoDup (map fst (entries "quotesn-runtime-v2-img"
                                    (caches Sample.two_generations))))
    by apply keys_distinct_two_generations.
  split; [exact Hkeys|].
  rewrite (proj1 (trimCache_twice "quotesn-runtime-v2-img" 1 3
                    Sample.two_generations Hkeys)).
  reflexivity.
Defined.

(** ** Activation, again *)

Lemma filter_idempotent {A : Type} (f : A -> bool) (l : list A) :
  filter f (filter f l) = filter f l.
Proof.
  induction l as [|a l IH]; cbn [filter].
  - reflexivity.
  - destruct (f a) eqn:Hf; cbn [filter]; [rewrite Hf; f_equal|]; exact IH.
Qed.

Lemma lookup_filter_names {V : Type} (keep : string -> bool) (name : string)
      (l : list (string * V)) :
  lookup name (filter (fun e => keep (fst e)) l)
  = if keep name then lookup name l else None.
Proof.
  induction l as [|[k v] l IH]; cbn [filter lookup fst].
  - now destruct (keep name).
  - destruct (String.eqb_spec k name) as [->|Hne].
    + destruct (keep name) eqn:Hk; cbn [lookup].
      * now rewrite String.eqb_refl.
      * exact IH.
    + destruct (keep k); cbn [lookup]; [|exact IH].
      destruct (String.eqb_spec k name); [contradiction|exact IH].
Qed.

Lemma fetch_log_for_each_delete (l : list string) :
  forall w, fetch_log (exec (for_each l caches_delete) w) = fetch_log w.
Proof.
  induction l as [|name l IH]; intros w; cbn [for_each].
  - reflexivity.
  - rewrite exec_bind, IH. reflexivity.
Qed.

(** X14. Activation is idempotent on the stores, and it is confined to
    its namespace: the current precache store, the current runtime store
    and every store whose name does not start with the namespace are
    still there afterwards exactly when they were there before, with the
    same entries.  It fetches nothing and claims the clients. *)
Theorem activate_idempotent_and_confined (VERSION : string) (w : World) :
  let after := exec (on_activate VERSION) w in
  caches (exec (on_activate VERSION) after) = caches after
  /\ (forall name,
        name = PRECACHE VERSION \/ name = RUNTIME_CACHE VERSION
        \/ startsWith name "quotesn-" = false ->
        lookup name (caches after) = lookup name (caches w))
  /\ fetch_log after = fetch_log w
  /\ clients_claimed after = true.
Proof.
  cbv zeta. split; [|split; [|split]].
  - rewrite !on_activate_caches. apply filter_idempotent.
  - intros name Hname. rewrite on_activate_caches.
    rewrite (lookup_filter_names (fun n => negb (swept VERSION n))).
    replace (swept VERSION name) with false; [reflexivity|].
    symmetry. unfold swept.
    destruct Hname as [->|[->|Hns]].
    + rewrite String.eqb_refl. cbn [negb]. now rewrite andb_false_r.
    + rewrite String.eqb_refl. cbn [negb]. now rewrite andb_false_r.
    + now rewrite Hns.
  - unfold on_activate. rewrite exec_bind. cbv beta. rewrite exec_bind.
    cbv beta. change (fetch_log (exec clients_claim ?x)) with (fetch_log x).
    now rewrite fetch_log_for_each_delete.
  - unfold on_activate. rewrite exec_bind. cbv beta. rewrite exec_bind.
    reflexivity.
Qed.

(** ** The install listener *)

Section PrecachingRuns.

Variable location_origin : string.
Variable network : string -> FetchMode -> option Response.

(** What fetching a path of the site yields. *)
Let fetched (path : string) : option Response :=
  fetch_outcome network (href (url (request_of_path location_origin path)))
    AsRequested.

Lemma fetch_all_run (paths : list string) :
  forall w,
    fetch_all location_origin network paths w
    = (map fetched paths,
       {| caches := caches w;
          fetch_log := (fetch_log w
                        ++ map (fun path =>
                                  href (url (request_of_path location_origin path)))
                             paths)%list;
          clients_claimed := clients_claimed w |}).
Proof.
  induction paths as [|path paths IH]; intros w; cbn [fetch_all map].
  - rewrite app_nil_r. now destruct w.
  - rewrite run_bind. cbv beta. rewrite run_bind. cbv beta.
    unfold result, exec. rewrite !IH.
    cbn [fst snd fetch ret caches fetch_log clients_claimed].
    now rewrite <- app_assoc.
Qed.

Lemma forallb_addable_map (paths : list string) :
  forallb addable (map fetched paths) = true
  <-> forall path, In path paths -> addable (fetched path) = true.
Proof.
  rewrite forallb_forall. split.
  - intros H path Hin. apply H. now apply in_map.
  - intros H r Hin. apply in_map_iff in Hin as [path [<- Hin]]. now apply H.
Qed.

Lemma put_all_frame (name other : string) (l : list (string * option Response)) :
  other <> name ->
  forall w, entries other (caches (exec (put_all location_origin name l) w))
            = entries other (caches w).
Proof.
  intros Hne. induction l as [|[path [response|]] l IH]; intros w; cbn [put_all].
  - reflexivity.
  - rewrite exec_bind, IH. now apply entries_cache_put_other.
  - apply IH.
Qed.

Lemma has_cache_cache_put (n name : string) (request : Request)
      (response : Response) (w : World) :
  has_cache name (caches (exec (cache_put n request response) w))
  = has_cache name (caches w).
Proof.
  unfold exec, cache_put. destruct (put_accepts response); cbn [snd];
    [|reflexivity].
  unfold with_caches, has_cache. cbn [caches]. rewrite lookup_update_cache.
  destruct (name =? n); [|reflexivity].
  now destruct (lookup name (caches w)).
Qed.

Lemma append_cancel (a x y : string) : a ++ x = a ++ y -> x = y.
Proof.
  induction a as [|c a IH]; cbn [String.append]; intros H.
  - exact H.
  - injection H as H. now apply IH.
Qed.

Lemma href_of_path_injective (p q : string) :
  href (url (request_of_path location_origin p))
  = href (url (request_of_path location_origin q)) -> p = q.
Proof.
  unfold href, request_of_path. cbn [url origin pathname search].
  intros H. apply append_cancel in H.
  assert (Hnil : forall s, s ++ "" = s).
  { induction s as [|c s IH]; cbn [String.append]; congruence. }
  now rewrite !Hnil in H.
Qed.

Lemma lookup_put_other (k k' : string) (r : Response) (c : Cache) :
  k <> k' -> lookup k (remove k' c ++ [(k', r)]) = lookup k c.
Proof.
  intros Hne. rewrite lookup_app. cbn [lookup].
  destruct (String.eqb_spec k' k) as [E|_]; [now subst|].
  unfold remove. induction c as [|[k0 v] c IH]; cbn [filter fst lookup].
  - reflexivity.
  - destruct (String.eqb_spec k0 k') as [->|Hne0]; cbn [negb lookup].
    + destruct (String.eqb_spec k' k) as [E|_]; [now subst|]. exact IH.
    + destruct (k0 =? k); [reflexivity|exact IH].
Qed.

(** After the puts of [addAll] on an existing store, a path that was
    fetched once holds its response. *)
Lemma put_all_lookup (name : string) (paths : list string) :
  distinct paths = true ->
  (forall path, In path paths ->
     exists r, fetched path = Some r /\ put_accepts r = true) ->
  forall w,
    has_cache name (caches w) = true ->
    forall path, In path paths ->
      lookup (href (url (request_of_path location_origin path)))
        (entries name
           (caches (exec (put_all location_origin name
                            (combine paths (map fetched paths))) w)))
      = fetched path.
Proof.
  induction paths as [|p paths IH]; intros Hd Hall w Hhas path Hin.
  - contradiction.
  - cbn [distinct] in Hd. apply andb_true_iff in Hd as [Hp Hd].
    apply negb_true_iff in Hp.
    destruct (Hall p (or_introl eq_refl)) as [r [Hr Hput]].
    cbn [map combine]. rewrite Hr. cbn [put_all]. rewrite exec_bind.
    set (w1 := exec (cache_put name (request_of_path location_origin p) r) w).
    assert (Hhas1 : has_cache name (caches w1) = true)
      by (unfold w1; now rewrite has_cache_cache_put).
    destruct Hin as [->|Hin].
    + (* the head: later puts are under other keys *)
      assert (Hlater : forall l w',
                 (forall q, In q (map fst l) -> q <> path) ->
                 lookup (href (url (request_of_path location_origin path)))
                   (entries name (caches (exec (put_all location_origin name l) w')))
                 = lookup (href (url (request_of_path location_origin path)))
                     (entries name (caches w'))).
      { induction l as [|[q [rq|]] l IHl]; intros w' Hq; cbn [put_all].
        - reflexivity.
        - rewrite exec_bind, IHl
            by (intros q' Hq'; apply Hq; cbn [map fst]; now right).
          destruct (put_accepts rq) eqn:Hrq;
            [|now rewrite exec_cache_put_refused].
          unfold exec. rewrite cache_put_accepted by exact Hrq.
          cbn [snd]. unfold with_caches. cbn [caches].
          destruct (lookup name (caches w')) as [c|] eqn:Hc.
          + rewrite entries_update_existing
              by (unfold has_cache; now rewrite Hc).
            apply lookup_put_other. intros E.
            apply href_of_path_injective in E.
            apply (Hq q); [cbn [map fst]; now left|]. now symmetry.
          + unfold entries. rewrite lookup_update_cache, String.eqb_refl, Hc.
            reflexivity.
        - apply IHl. intros q' Hq'. apply Hq. cbn [map fst]. now right. }
      rewrite Hlater.
      * unfold w1. rewrite entries_cache_put by assumption.
        rewrite lookup_put. now symmetry.
      * intros q Hq E. subst q.
        assert (Hin : In path paths).
        { clear -Hq. revert Hq. generalize (map fetched paths).
          induction paths as [|a paths IHp]; intros l Hq; [contradiction|].
          destruct l as [|b l]; [contradiction|].
          cbn [combine map fst] in Hq. destruct Hq as [->|Hq]; [now left|].
          right. now apply (IHp l). }
        assert (Hex : existsb (String.eqb path) paths = true).
        { apply existsb_exists. exists path. split; [exact Hin|].
          apply String.eqb_refl. }
        congruence.
    + apply IH; try assumption.
      intros q Hq. apply Hall. now right.
Qed.

Lemma cache_addAll_accepted (name : string) (paths : list string) (w : World) :
  distinct paths = true ->
  (forall path, In path paths -> addable (fetched path) = true) ->
  cache_addAll location_origin network name paths w
  = (Fulfills JUndefined,
     exec (put_all location_origin name (combine paths (map fetched paths)))
       (exec (fetch_all location_origin network paths) w)).
Proof.
  intros Hd Hall. unfold cache_addAll. rewrite run_bind. cbv beta.
  replace (result (fetch_all location_origin network paths) w)
    with (map fetched paths)
    by (unfold result; now rewrite fetch_all_run).
  rewrite Hd, (proj2 (forallb_addable_map paths) Hall). cbn [andb].
  rewrite run_bind. reflexivity.
Qed.

Lemma cache_addAll_refused (name : string) (paths : list string) (w : World)
      (path : string) :
  In path paths -> addable (fetched path) = false ->
  cache_addAll location_origin network name paths w
  = (Rejects, exec (fetch_all location_origin network paths) w).
Proof.
  intros Hin Hbad. unfold cache_addAll. rewrite run_bind. cbv beta.
  replace (result (fetch_all location_origin network paths) w)
    with (map fetched paths)
    by (unfold result; now rewrite fetch_all_run).
  replace (forallb addable (map fetched paths)) with false.
  - now rewrite andb_false_r.
  - symmetry. apply not_true_is_false. intros H.
    pose proof (proj1 (forallb_addable_map paths) H path Hin). congruence.
Qed.

End PrecachingRuns.

Lemma fetch_log_put_all (location_origin name : string)
      (l : list (string * option Response)) :
  forall w, fetch_log (exec (put_all location_origin name l) w) = fetch_log w.
Proof.
  induction l as [|[path [response|]] l IH]; intros w; cbn [put_all].
  - reflexivity.
  - rewrite exec_bind, IH. apply fetch_log_cache_put.
  - apply IH.
Qed.

Lemma caches_fetch_all (location_origin : string)
      (network : string -> FetchMode -> option Response)
      (paths : list string) (w : World) :
  caches (exec (fetch_all location_origin network paths) w) = caches w.
Proof. unfold exec. now rewrite fetch_all_run. Qed.

Lemma fetch_log_fetch_all (location_origin : string)
      (network : string -> FetchMode -> option Response)
      (paths : list string) (w : World) :
  fetch_log (exec (fetch_all location_origin network paths) w)
  = (fetch_log w
     ++ map (fun path => href (url (request_of_path location_origin path))) paths)%list.
Proof. unfold exec. now rewrite fetch_all_run. Qed.

Lemma addable_Some (r : option Response) :
  addable r = true ->
  exists response, r = Some response /\ put_accepts response = true.
Proof.
  destruct r as [response|]; [|discriminate]. cbn [addable]. intros H.
  exists response. split; [reflexivity|]. unfold put_accepts.
  apply andb_true_iff in H as [H Hvary].
  apply andb_true_iff in H as [_ Hpartial].
  now rewrite Hpartial, Hvary.
Qed.

(** What [addAll] does on a store that was opened, in both cases. *)
Lemma addAll_after_open (location_origin : string)
      (network : string -> FetchMode -> option Response)
      (name : string) (paths : list string) (w : World) :
  distinct paths = true ->
  let run := cache_addAll location_origin network name paths in
  let opened := exec (caches_open name) w in
  ((forall path, In path paths ->
      addable (fetch_outcome network
                 (href (url (request_of_path location_origin path))) AsRequested)
      = true) ->
   result run opened = Fulfills JUndefined
   /\ (forall path, In path paths ->
         lookup (href (url (request_of_path location_origin path)))
           (entries name (caches (exec run opened)))
         = fetch_outcome network
             (href (url (request_of_path location_origin path))) AsRequested)
   /\ (forall other, other <> name ->
         entries other (caches (exec run opened)) = entries other (caches w)))
  /\ (forall path, In path paths ->
        addable (fetch_outcome network
                   (href (url (request_of_path location_origin path))) AsRequested)
        = false ->
        result run opened = Rejects
        /\ forall other, entries other (caches (exec run opened))
                         = entries other (caches w))
  /\ fetch_log (exec run opened)
     = (fetch_log w
        ++ map (fun path => href (url (request_of_path location_origin path)))
             paths)%list.
Proof.
  intros Hd. cbv zeta. set (opened := exec (caches_open name) w).
  split; [|split].
  - intros Hall.
    pose proof (cache_addAll_accepted location_origin network name paths
                  opened Hd Hall) as Hrun.
    assert (Hexec : exec (cache_addAll location_origin network name paths) opened
                    = exec (put_all location_origin name
                              (combine paths
                                 (map (fun path =>
                                         fetch_outcome network
                                           (href (url (request_of_path
                                                         location_origin path)))
                                           AsRequested) paths)))
                        (exec (fetch_all location_origin network paths) opened))
      by (unfold exec at 1; now rewrite Hrun).
    split; [unfold result; now rewrite Hrun|].
    rewrite Hexec. split.
    + intros path Hin. apply put_all_lookup; try assumption.
      * intros p Hp. apply addable_Some. now apply Hall.
      * rewrite caches_fetch_all. apply has_cache_caches_open.
    + intros other Hne. rewrite put_all_frame by exact Hne.
      rewrite caches_fetch_all. apply entries_caches_open.
  - intros path Hin Hbad.
    pose proof (cache_addAll_refused location_origin network name paths
                  opened path Hin Hbad) as Hrun.
    split; [unfold result; now rewrite Hrun|].
    intros other. unfold exec at 1. rewrite Hrun. cbn [snd].
    rewrite caches_fetch_all. apply entries_caches_open.
  - assert (Hlog : fetch_log (exec (fetch_all location_origin network paths)
                                opened)
                   = (fetch_log w
                      ++ map (fun path =>
                                href (url (request_of_path location_origin path)))
                           paths)%list)
      by (unfold opened; rewrite fetch_log_fetch_all, fetch_log_caches_open;
          reflexivity).
    unfold cache_addAll. rewrite exec_bind.
    destruct (_ && _).
    + rewrite exec_bind. cbv beta.
      change (exec (ret ?v) ?x) with x.
      now rewrite fetch_log_put_all.
    + exact Hlog.
Qed.

Lemma on_install_run (location_origin : string)
      (network : string -> FetchMode -> option Response)
      (VERSION : string) (w : World) :
  let added := cache_addAll location_origin network (PRECACHE VERSION) CORE_ROUTES in
  let opened := exec (caches_open (PRECACHE VERSION)) w in
  on_install location_origin network VERSION w
  = ({| waitUntil := match result added opened with
                     | Fulfills v => Fulfills v
                     | Rejects => Fulfills JUndefined
                     end;
        skipWaiting := true |},
     exec added opened).
Proof.
  cbv zeta. unfold on_install. run. reflexivity.
Qed.

(** X15. Install, every core route answered with a response that
    [addAll] takes (an ok status other than 206, and no [Vary: *]): the
    promise handed to [waitUntil] is fulfilled, every core route is in
    the precache store with the response the network gave for it, no
    other store changes, and the routes were fetched once each, in
    order. *)
Theorem on_install_precaches_core_routes
  (location_origin : string)
  (network : string -> FetchMode -> option Response)
  (VERSION : string) (w : World)
  (Hok : forall route, In route CORE_ROUTES ->
           addable (fetch_outcome network
                      (href (url (request_of_path location_origin route)))
                      AsRequested) = true) :
  let after := exec (on_install location_origin network VERSION) w in
  waitUntil (result (on_install location_origin network VERSION) w)
  = Fulfills JUndefined
  /\ (forall route, In route CORE_ROUTES ->
        lookup (href (url (request_of_path location_origin route)))
          (entries (PRECACHE VERSION) (caches after))
        = fetch_outcome network
            (href (url (request_of_path location_origin route))) AsRequested)
  /\ (forall name, name <> PRECACHE VERSION ->
        entries name (caches after) = entries name (caches w))
  /\ fetch_log after
     = (fetch_log w
        ++ map (fun route => href (url (request_of_path location_origin route)))
             CORE_ROUTES)%list.
Proof.
  cbv zeta.
  pose proof (on_install_run location_origin network VERSION w) as Hrun.
  cbv zeta in Hrun.
  destruct (addAll_after_open location_origin network (PRECACHE VERSION)
              CORE_ROUTES w eq_refl) as (Hgood & _ & Hlog).
  destruct (Hgood Hok) as (Hres & Hstored & Hframe).
  cbv zeta in Hlog. rewrite Hres in Hrun.
  unfold result, exec. rewrite Hrun. cbn [fst snd waitUntil].
  split; [reflexivity|]. split; [exact Hstored|].
  split; [exact Hframe|exact Hlog].
Qed.

Lemma on_install_precaches_core_routes_witness :
  (forall route, In route CORE_ROUTES ->
     addable (fetch_outcome (Sample.always Scenario.home)
                (href (url (request_of_path Sample.site route))) AsRequested)
     = true)
  /\ lookup "https://quotesn.com/blog/"
       (entries (PRECACHE Deployed.VERSION)
          (caches (exec (on_install Sample.site (Sample.always Scenario.home)
                           Deployed.VERSION) Sample.fresh)))
     = Some Scenario.home.
Proof.
  assert (Hok : forall route, In route CORE_ROUTES ->
                  addable (fetch_outcome (Sample.always Scenario.home)
                             (href (url (request_of_path Sample.site route)))
                             AsRequested) = true).
  { intros route Hin. cbn in Hin.
    repeat (destruct Hin as [<-|Hin]; [reflexivity|]). contradiction. }
  split; [exact Hok|].
  destruct (on_install_precaches_core_routes Sample.site
              (Sample.always Scenario.home) Deployed.VERSION Sample.fresh Hok)
    as (_ & Hstored & _).
  cbv zeta in Hstored.
  assert (Hblog : In "/blog/" CORE_ROUTES) by (cbn; tauto).
  exact (Hstored "/blog/" Hblog).
Defined.

(** X16. Install, some core route not answered with an ok response
    (the fetch fails, or the status is not ok): the promise handed to
    [waitUntil] is fulfilled all the same, so the installation goes on,
    [skipWaiting] is called, and nothing at all is precached: the
    entries of every store are as before, although every core route was
    fetched. *)
Theorem on_install_all_or_nothing
  (location_origin : string)
  (network : string -> FetchMode -> option Response)
  (VERSION : string) (w : World) (route : string)
  (Hroute : In route CORE_ROUTES)
  (Hbad : addable (fetch_outcome network
                     (href (url (request_of_path location_origin route)))
                     AsRequested) = false) :
  let after := exec (on_install location_origin network VERSION) w in
  result (on_install location_origin network VERSION) w
  = {| waitUntil := Fulfills JUndefined; skipWaiting := true |}
  /\ (forall name, entries name (caches after) = entries name (caches w))
  /\ fetch_log after
     = (fetch_log w
        ++ map (fun route => href (url (request_of_path location_origin route)))
             CORE_ROUTES)%list.
Proof.
  cbv zeta.
  pose proof (on_install_run location_origin network VERSION w) as Hrun.
  cbv zeta in Hrun.
  destruct (addAll_after_open location_origin network (PRECACHE VERSION)
              CORE_ROUTES w eq_refl) as (_ & Hrefused & Hlog).
  destruct (Hrefused route Hroute Hbad) as (Hres & Hsame).
  cbv zeta in Hlog. rewrite Hres in Hrun.
  unfold result, exec. rewrite Hrun. cbn [fst snd].
  split; [reflexivity|]. split; [exact Hsame|exact Hlog].
Qed.

Lemma on_install_all_or_nothing_witness :
  In "/terms/" CORE_ROUTES
  /\ addable (fetch_outcome (Scenario.all_but "https://quotesn.com/terms/")
                (href (url (request_of_path Sample.site "/terms/"))) AsRequested)
     = false
  /\ caches (exec (on_install Sample.site
                     (Scenario.all_but "https://quotesn.com/terms/")
                     Deployed.VERSION) Sample.fresh)
     = [(PRECACHE Deployed.VERSION, [])]
  /\ result (on_install Sample.site
               (Scenario.all_but "https://quotesn.com/terms/")
               Deployed.VERSION) Sample.fresh
     = {| waitUntil := Fulfills JUndefined; skipWaiting := true |}.
Proof.
  assert (Hroute : In "/terms/" CORE_ROUTES) by (cbn; tauto).
  split; [exact Hroute|]. split; [reflexivity|]. split; [reflexivity|].
  exact (proj1 (on_install_all_or_nothing Sample.site
                  (Scenario.all_but "https://quotesn.com/terms/")
                  Deployed.VERSION Sample.fresh "/terms/" Hroute eq_refl)).
Defined.

(* ================================================================== *)
(** * The shell worker *)

(** X17. The shell worker's activation deletes every store whose name
    is not its version, stores of other origins of data included; the
    store of the version keeps its entries. *)
Theorem shell_activate_keeps_only_version (w : World) :
  let after := exec ShellWorker.on_activate w in
  caches after = filter (fun e => fst e =? ShellWorker.VERSION) (caches w)
  /\ (forall name, In name (store_names (caches after)) ->
        name = ShellWorker.VERSION)
  /\ lookup ShellWorker.VERSION (caches after)
     = lookup ShellWorker.VERSION (caches w).
Proof.
  cbv zeta.
  assert (Hcaches : caches (exec ShellWorker.on_activate w)
                    = filter (fun e => fst e =? ShellWorker.VERSION) (caches w)).
  { unfold ShellWorker.on_activate. rewrite exec_bind. cbv beta.
    change (exec caches_keys w) with w.
    change (result caches_keys w) with (store_names (caches w)).
    rewrite exec_bind. cbv beta.
    change (caches (exec clients_claim ?x)) with (caches x).
    rewrite for_each_delete, fold_remove.
    apply filter_ext_in. intros e He.
    destruct (fst e =? ShellWorker.VERSION) eqn:Hv.
    - apply negb_true_iff.
      destruct (existsb _ _) eqn:Hex; [|reflexivity].
      apply existsb_exists in Hex as [name [Hin Heq]].
      apply String.eqb_eq in Heq. subst name.
      apply filter_In in Hin as [_ Hin]. rewrite Hv in Hin. discriminate.
    - apply negb_false_iff. apply existsb_exists. exists (fst e). split.
      + apply filter_In. split; [|now rewrite Hv].
        unfold store_names. now apply in_map.
      + apply String.eqb_refl. }
  split; [exact Hcaches|]. split.
  - intros name Hin. rewrite Hcaches in Hin.
    rewrite (store_names_filter (fun n => n =? ShellWorker.VERSION)) in Hin.
    apply filter_In in Hin as [_ Hin]. now apply String.eqb_eq.
  - rewrite Hcaches.
    rewrite (lookup_filter_names (fun n => n =? ShellWorker.VERSION)).
    now rewrite String.eqb_refl.
Qed.

Lemma result_of_bind {A B : Type} (m : Task A) (k : A -> Task B) (w : World) :
  result (bind m k) w = result (k (result m w)) (exec m w).
Proof.
  unfold exec, result, bind. now destruct (m w).
Qed.

Section ShellRuns.

Variable location_origin : string.
Variable network : string -> FetchMode -> option Response.

Let key_404 : string := href (url (request_of_path location_origin "/404.html")).

Lemma shell_navigation_run (request : Request) (w : World) :
  ShellWorker.navigation location_origin network request w
  = match match_all (href (url request)) (caches w) with
    | Some page => (Fulfills (JResponse page), w)
    | None =>
        match match_all key_404 (caches w) with
        | Some lost => (Fulfills (JResponse lost), w)
        | None =>
            (match fetch_outcome network (href (url request)) AsRequested with
             | Some response => Fulfills (JResponse response)
             | None => Fulfills JUndefined
             end,
             exec (fetch network (href (url request)) AsRequested) w)
        end
    end.
Proof.
  unfold ShellWorker.navigation, ShellWorker.match_404. run. prim.
  destruct (match_all (href (url request)) (caches w)) as [page|];
    cbn [truthy]; prim.
  - reflexivity.
  - fold key_404.
    destruct (match_all key_404 (caches w)) as [lost|] eqn:H404; cbn [truthy].
    + reflexivity.
    + run. prim.
      destruct (fetch_outcome network (href (url request)) AsRequested)
        as [response|].
      * reflexivity.
      * run. prim. cbn [caches]. fold key_404. rewrite H404. reflexivity.
Qed.

Lemma shell_static_asset_run (request : Request) (w : World) :
  let cached := match_all (href (url request)) (caches w) in
  let fetched := exec (fetch network (href (url request)) AsRequested) w in
  ShellWorker.static_asset network request w
  = match fetch_outcome network (href (url request)) AsRequested with
    | Some response =>
        (Fulfills (JResponse (match cached with
                              | Some page => page
                              | None => response
                              end)),
         exec (cache_put ShellWorker.VERSION request response)
           (exec (caches_open ShellWorker.VERSION) fetched))
    | None =>
        (Fulfills (match cached with
                   | Some page => JResponse page
                   | None => JUndefined
                   end),
         fetched)
    end.
Proof.
  cbv zeta. unfold ShellWorker.static_asset. run. prim.
  destruct (fetch_outcome network (href (url request)) AsRequested) as [response|].
  - rewrite !result_of_bind, !exec_bind. cbv beta.
    destruct (match_all (href (url request)) (caches w)); reflexivity.
  - prim.
    destruct (match_all (href (url request)) (caches w)); reflexivity.
Qed.

End ShellRuns.

(** X18. The shell worker's navigations, once the 404 page is cached:
    the network is never asked.  A cached page is served as it is, and
    every other navigation gets the cached 404 page, also when the
    network is up; the world is left as it was. *)
Theorem shell_navigation_never_fetches_with_404_cached
  (location_origin : string)
  (network : string -> FetchMode -> option Response)
  (request : Request) (lost : Response) (w : World)
  (H404 : match_all (href (url (request_of_path location_origin "/404.html")))
            (caches w) = Some lost) :
  ShellWorker.navigation location_origin network request w
  = (Fulfills (JResponse (match match_all (href (url request)) (caches w) with
                          | Some page => page
                          | None => lost
                          end)),
     w).
Proof.
  rewrite shell_navigation_run, H404.
  now destruct (match_all (href (url request)) (caches w)).
Qed.

Lemma shell_navigation_never_fetches_with_404_cached_witness :
  match_all (href (url (request_of_path Sample.site "/404.html")))
    (caches Scenario.shell_installed) = Some Scenario.lost
  /\ ShellWorker.navigation Sample.site (Sample.always Scenario.home)
       Sample.about_page Scenario.shell_installed
     = (Fulfills (JResponse Scenario.lost), Scenario.shell_installed).
Proof.
  split; [reflexivity|].
  exact (shell_navigation_never_fetches_with_404_cached Sample.site
           (Sample.always Scenario.home) Sample.about_page Scenario.lost
           Scenario.shell_installed eq_refl).
Defined.

(** X19. The shell worker's navigations with neither the page nor the
    404 page in any store: the handler resolves to the network's
    response when there is one, and to [undefined], which is no
    Response, when the fetch fails; in both cases nothing is stored. *)
Theorem shell_navigation_uncached
  (location_origin : string)
  (network : string -> FetchMode -> option Response)
  (request : Request) (w : World)
  (Hpage : match_all (href (url request)) (caches w) = None)
  (H404 : match_all (href (url (request_of_path location_origin "/404.html")))
            (caches w) = None) :
  let run := ShellWorker.navigation location_origin network request in
  result run w
  = match fetch_outcome network (href (url request)) AsRequested with
    | Some response => Fulfills (JResponse response)
    | None => Fulfills JUndefined
    end
  /\ caches (exec run w) = caches w
  /\ fetch_log (exec run w) = (fetch_log w ++ [href (url request)])%list.
Proof.
  cbv zeta. unfold result, exec.
  rewrite shell_navigation_run, Hpage, H404. repeat split.
Qed.

Lemma shell_navigation_uncached_witness :
  match_all (href (url Sample.about_page)) (caches Sample.fresh) = None
  /\ match_all (href (url (request_of_path Sample.site "/404.html")))
       (caches Sample.fresh) = None
  /\ result (ShellWorker.navigation Sample.site Sample.offline Sample.about_page)
       Sample.fresh
     = Fulfills JUndefined.
Proof.
  split; [reflexivity|]. split; [reflexivity|].
  exact (proj1 (shell_navigation_uncached Sample.site Sample.offline
                  Sample.about_page Sample.fresh eq_refl eq_refl)).
Defined.

(** X20. The shell worker's static assets, network up: the handler
    resolves to the first cached entry of any store, or to the network's
    response when there is none.  The network's response is put into
    the version store without a look at its status: an error answer is
    stored like any other.  When the cache takes it (status not 206, no
    [Vary: *]) it becomes the youngest entry under the request's URL;
    when the cache refuses it, the version store keeps its entries.  No
    other store is changed. *)
Theorem shell_static_asset_online
  (network : string -> FetchMode -> option Response)
  (request : Request) (response : Response) (w : World)
  (Hnet : fetch_outcome network (href (url request)) AsRequested = Some response) :
  let run := ShellWorker.static_asset network request in
  result run w
  = Fulfills (JResponse (match match_all (href (url request)) (caches w) with
                         | Some page => page
                         | None => response
                         end))
  /\ entries ShellWorker.VERSION (caches (exec run w))
     = (if put_accepts response
        then (remove (href (url request))
                (entries ShellWorker.VERSION (caches w))
              ++ [(href (url request), response)])%list
        else entries ShellWorker.VERSION (caches w))
  /\ (forall name, name <> ShellWorker.VERSION ->
        entries name (caches (exec run w)) = entries name (caches w)).
Proof.
  cbv zeta. pose proof (shell_static_asset_run network request w) as Hrun.
  cbv zeta in Hrun. rewrite Hnet in Hrun.
  unfold result, exec. rewrite Hrun. cbn [fst snd].
  split; [reflexivity|]. split.
  - rewrite entries_open_put, String.eqb_refl. reflexivity.
  - intros name Hne. rewrite entries_open_put.
    now destruct (String.eqb_spec name ShellWorker.VERSION).
Qed.

Lemma shell_static_asset_online_witness :
  fetch_outcome (Sample.always Scenario.server_error)
    (href (url Sample.quotes_json)) AsRequested = Some Scenario.server_error
  /\ result (ShellWorker.static_asset (Sample.always Scenario.server_error)
               Sample.quotes_json) Scenario.shell_installed
     = Fulfills (JResponse Scenario.server_error)
  /\ map fst
       (entries ShellWorker.VERSION
          (caches (exec (ShellWorker.static_asset
                           (Sample.always Scenario.server_error)
                           Sample.quotes_json) Scenario.shell_installed)))
     = ["https://quotesn.com/"; "https://quotesn.com/404.html";
        "https://quotesn.com/data/quotes.json"]
  /\ fetch_outcome (Sample.always Scenario.partial)
       (href (url Sample.quotes_json)) AsRequested = Some Scenario.partial
  /\ map fst
       (entries ShellWorker.VERSION
          (caches (exec (ShellWorker.static_asset
                           (Sample.always Scenario.partial)
                           Sample.quotes_json) Scenario.shell_installed)))
     = ["https://quotesn.com/"; "https://quotesn.com/404.html"].
Proof.
  split; [reflexivity|].
  destruct (shell_static_asset_online (Sample.always Scenario.server_error)
              Sample.quotes_json Scenario.server_error Scenario.shell_installed
              eq_refl) as (Hres & Hstored & _).
  destruct (shell_static_asset_online (Sample.always Scenario.partial)
              Sample.quotes_json Scenario.partial Scenario.shell_installed
              eq_refl) as (_ & Hrefused & _).
  cbv zeta in Hres, Hstored, Hrefused. split; [exact Hres|].
  split; [rewrite Hstored; reflexivity|]. split; [reflexivity|].
  rewrite Hrefused. reflexivity.
Defined.

(** X21. The shell worker's static assets, network down: the handler
    resolves to the first cached entry of any store, and without one to
    [undefined], which is no Response; nothing is stored. *)
Theorem shell_static_asset_offline
  (network : string -> FetchMode -> option Response)
  (request : Request) (w : World)
  (Hfail : fetch_outcome network (href (url request)) AsRequested = None) :
  let run := ShellWorker.static_asset network request in
  result run w
  = Fulfills (match match_all (href (url request)) (caches w) with
              | Some page => JResponse page
              | None => JUndefined
              end)
  /\ caches (exec run w) = caches w.
Proof.
  cbv zeta. pose proof (shell_static_asset_run network request w) as Hrun.
  cbv zeta in Hrun. rewrite Hfail in Hrun.
  unfold result, exec. rewrite Hrun. split; reflexivity.
Qed.

Lemma shell_static_asset_offline_witness :
  fetch_outcome Sample.offline (href (url Sample.quotes_json)) AsRequested = None
  /\ result (ShellWorker.static_asset Sample.offline Sample.quotes_json)
       Scenario.shell_installed
     = Fulfills JUndefined.
Proof.
  split; [reflexivity|].
  exact (proj1 (shell_static_asset_offline Sample.offline Sample.quotes_json
                  Scenario.shell_installed eq_refl)).
Defined.

Lemma shell_on_install_run (location_origin : string)
      (network : string -> FetchMode -> option Response) (w : World) :
  let added := cache_addAll location_origin network ShellWorker.VERSION
                 ShellWorker.CORE_ROUTES in
  let opened := exec (caches_open ShellWorker.VERSION) w in
  ShellWorker.on_install location_origin network w
  = (match result added opened with
     | Fulfills _ => {| waitUntil := Fulfills JUndefined; skipWaiting := true |}
     | Rejects => {| waitUntil := Rejects; skipWaiting := false |}
     end,
     exec added opened).
Proof.
  cbv zeta. unfold ShellWorker.on_install. run.
  now destruct (result _ _).
Qed.

(** X22. The shell worker's install, some core route not answered with
    an ok response: the promise handed to [waitUntil] rejects, so the
    installation fails, [skipWaiting] is not called, and nothing is
    stored. *)
Theorem shell_install_fails_without_a_route
  (location_origin : string)
  (network : string -> FetchMode -> option Response)
  (w : World) (route : string)
  (Hroute : In route ShellWorker.CORE_ROUTES)
  (Hbad : addable (fetch_outcome network
                     (href (url (request_of_path location_origin route)))
                     AsRequested) = false) :
  result (ShellWorker.on_install location_origin network) w
  = {| waitUntil := Rejects; skipWaiting := false |}
  /\ (forall name,
        entries name (caches (exec (ShellWorker.on_install location_origin network) w))
        = entries name (caches w)).
Proof.
  pose proof (shell_on_install_run location_origin network w) as Hrun.
  cbv zeta in Hrun.
  destruct (addAll_after_open location_origin network ShellWorker.VERSION
              ShellWorker.CORE_ROUTES w eq_refl) as (_ & Hrefused & _).
  destruct (Hrefused route Hroute Hbad) as (Hres & Hsame).
  rewrite Hres in Hrun. unfold result, exec. rewrite Hrun. cbn [fst snd].
  split; [reflexivity|exact Hsame].
Qed.

Lemma shell_install_fails_without_a_route_witness :
  In "/404.html" ShellWorker.CORE_ROUTES
  /\ addable (fetch_outcome (Scenario.all_but "https://quotesn.com/404.html")
                (href (url (request_of_path Sample.site "/404.html")))
                AsRequested) = false
  /\ result (ShellWorker.on_install Sample.site
               (Scenario.all_but "https://quotesn.com/404.html")) Sample.fresh
     = {| waitUntil := Rejects; skipWaiting := false |}.
Proof.
  assert (Hroute : In "/404.html" ShellWorker.CORE_ROUTES) by (cbn; tauto).
  split; [exact Hroute|]. split; [reflexivity|].
  exact (proj1 (shell_install_fails_without_a_route Sample.site
                  (Scenario.all_but "https://quotesn.com/404.html")
                  Sample.fresh "/404.html" Hroute eq_refl)).
Defined.

(** X23. The shell worker's install, every core route answered with a
    response that [addAll] takes (an ok status other than 206, and no
    [Vary: *]): the promise is fulfilled, [skipWaiting] is called, and
    every core route, the 404 page among them, is in the version store
    with the response the network gave for it. *)
Theorem shell_install_stores_core_routes
  (location_origin : string)
  (network : string -> FetchMode -> option Response) (w : World)
  (Hok : forall route, In route ShellWorker.CORE_ROUTES ->
           addable (fetch_outcome network
                      (href (url (request_of_path location_origin route)))
                      AsRequested) = true) :
  result (ShellWorker.on_install location_origin network) w
  = {| waitUntil := Fulfills JUndefined; skipWaiting := true |}
  /\ (forall route, In route ShellWorker.CORE_ROUTES ->
        lookup (href (url (request_of_path location_origin route)))
          (entries ShellWorker.VERSION
             (caches (exec (ShellWorker.on_install location_origin network) w)))
        = fetch_outcome network
            (href (url (request_of_path location_origin route))) AsRequested).
Proof.
  pose proof (shell_on_install_run location_origin network w) as Hrun.
  cbv zeta in Hrun.
  destruct (addAll_after_open location_origin network ShellWorker.VERSION
              ShellWorker.CORE_ROUTES w eq_refl) as (Hgood & _ & _).
  destruct (Hgood Hok) as (Hres & Hstored & _).
  rewrite Hres in Hrun. unfold result, exec. rewrite Hrun. cbn [fst snd].
  split; [reflexivity|exact Hstored].
Qed.

Lemma shell_install_stores_core_routes_witness :
  (forall route, In route ShellWorker.CORE_ROUTES ->
     addable (fetch_outcome (Sample.always Scenario.lost)
                (href (url (request_of_path Sample.site route))) AsRequested)
     = true)
  /\ result (ShellWorker.on_install Sample.site (Sample.always Scenario.lost))
       Sample.fresh
     = {| waitUntil := Fulfills JUndefined; skipWaiting := true |}.
Proof.
  assert (Hok : forall route, In route ShellWorker.CORE_ROUTES ->
                  addable (fetch_outcome (Sample.always Scenario.lost)
                             (href (url (request_of_path Sample.site route)))
                             AsRequested) = true).
  { intros route Hin. cbn in Hin.
    repeat (destruct Hin as [<-|Hin]; [reflexivity|]). contradiction. }
  split; [exact Hok|].
  exact (proj1 (shell_install_stores_core_routes Sample.site
                  (Sample.always Scenario.lost) Sample.fresh Hok)).
Defined.

(** One answer with [Vary: *] is enough for nothing to be stored: the
    worker's install goes on with an empty precache, and the shell
    worker's install fails. *)
Example install_with_a_varying_answer :
  addable (Some Scenario.varying) = false
  /\ caches (exec (on_install Sample.site (Sample.always Scenario.varying)
                     Deployed.VERSION) Sample.fresh)
     = [(PRECACHE Deployed.VERSION, [])]
  /\ ShellWorker.on_install Sample.site (Sample.always Scenario.varying)
       Sample.fresh
     = ({| waitUntil := Rejects; skipWaiting := false |},
        exec (fetch_all Sample.site (Sample.always Scenario.varying)
                ShellWorker.CORE_ROUTES)
          (exec (caches_open ShellWorker.VERSION) Sample.fresh)).
Proof. repeat split. Qed.
